(** * Verification of the agrama-v2 conversation tools

    Shallow embedding of
    - [tools/conversation_processor.py] (log-to-session parser),
    - [tools/llm_analyzer.py] (cache-backed extraction orchestrator),
    - [tools/llm_enhanced_processor.py] (graph merger),
    and the properties of the specification proved about them. *)

From Stdlib Require Import ZArith String Ascii List Bool Floats DecimalString
  DecimalNat.
From stdpp Require Import base option list strings gmap.

Local Open Scope string_scope.
Local Open Scope list_scope.

Set Warnings "-register-all,-clear-no-such-hyp".

(** ** Python values

    The programs are dynamically typed: every value read from a JSON
    document is one of [None], [bool], [int], [float], [str], [list] or
    [dict].  A [dict] keeps its insertion order, so it is an association
    list; a lookup returns the first binding of the key. *)
Module Py.

Inductive value : Type :=
| VNone
| VBool (b : bool)
| VInt (z : Z)
| VFloat (f : float)
| VStr (s : string)
| VList (l : list value)
| VDict (d : list (string * value)).

Definition dict := list (string * value).

(** [key in d] and [d.get(key)] / [d.get(key, default)]. *)
Fixpoint lookup (k : string) (d : dict) : option value :=
  match d with
  | [] => None
  | (k', v) :: d' => if String.eqb k k' then Some v else lookup k d'
  end.

Definition contains (k : string) (d : dict) : bool :=
  match lookup k d with Some _ => true | None => false end.

Definition get (d : dict) (k : string) (default : value) : value :=
  match lookup k d with Some v => v | None => default end.

(** Truth value of an object, as tested by [if x], [not x], [x or y]. *)
Definition truthy (v : value) : bool :=
  match v with
  | VNone => false
  | VBool b => b
  | VInt z => negb (Z.eqb z 0)
  | VFloat f => negb (PrimFloat.eqb f 0%float)
  | VStr s => negb (String.eqb s "")
  | VList l => match l with [] => false | _ => true end
  | VDict d => match d with [] => false | _ => true end
  end.

(** [v == s] for a string literal [s]: only a [str] equals a [str]. *)
Definition eq_str (v : value) (s : string) : bool :=
  match v with VStr s' => String.eqb s' s | _ => false end.

(** [float(z)] as done by the arithmetic operators: round to nearest even,
    [OverflowError] ([None]) when the integer is out of the double range. *)
Definition float_of_int (z : Z) : option float :=
  match z with
  | Z0 => Some 0%float
  | Zpos p =>
      match SpecFloat.binary_normalize prec emax (Zpos p) 0 false with
      | SpecFloat.S754_finite s m e => Some (SF2Prim (SpecFloat.S754_finite s m e))
      | _ => None
      end
  | Zneg p =>
      match SpecFloat.binary_normalize prec emax (Zpos p) 0 false with
      | SpecFloat.S754_finite _ m e => Some (SF2Prim (SpecFloat.S754_finite true m e))
      | _ => None
      end
  end.

Definition int_of_bool (b : bool) : Z := if b then 1%Z else 0%Z.

(** The number behind a [bool], [int] or [float]. *)
Inductive number := NInt (z : Z) | NFloat (f : float).

Definition as_number (v : value) : option number :=
  match v with
  | VBool b => Some (NInt (int_of_bool b))
  | VInt z => Some (NInt z)
  | VFloat f => Some (NFloat f)
  | _ => None
  end.

(** [a + b]: [None] stands for a raised exception ([TypeError], or
    [OverflowError] when an [int] does not fit a [float]). *)
Definition add (a b : value) : option value :=
  match a, b with
  | VStr s1, VStr s2 => Some (VStr (s1 ++ s2))
  | VList l1, VList l2 => Some (VList (l1 ++ l2))
  | _, _ =>
      match as_number a, as_number b with
      | Some (NInt x), Some (NInt y) => Some (VInt (x + y))
      | Some (NFloat x), Some (NFloat y) => Some (VFloat (x + y)%float)
      | Some (NInt x), Some (NFloat y) =>
          f ← float_of_int x; Some (VFloat (f + y)%float)
      | Some (NFloat x), Some (NInt y) =>
          f ← float_of_int y; Some (VFloat (x + f)%float)
      | _, _ => None
      end
  end.

(** One-character strings of a [str], as produced by iterating over it. *)
Fixpoint chars (s : string) : list value :=
  match s with
  | EmptyString => []
  | String c s' => VStr (String c EmptyString) :: chars s'
  end.

(** [for x in v]: the items visited, [None] when [v] is not iterable. *)
Definition iter (v : value) : option (list value) :=
  match v with
  | VList l => Some l
  | VStr s => Some (chars s)
  | VDict d => Some (map (fun kv => VStr (fst kv)) d)
  | _ => None
  end.

(** [str.isspace] on one character; characters are code points below 256. *)
Definition is_space (c : ascii) : bool :=
  let n := nat_of_ascii c in
  (Nat.leb 9 n && Nat.leb n 13) || (Nat.leb 28 n && Nat.leb n 32)
  || Nat.eqb n 133 || Nat.eqb n 160.

Fixpoint lstrip (s : string) : string :=
  match s with
  | EmptyString => EmptyString
  | String c s' => if is_space c then lstrip s' else s
  end.

Fixpoint rstrip (s : string) : string :=
  match s with
  | EmptyString => EmptyString
  | String c s' =>
      match rstrip s' with
      | EmptyString => if is_space c then EmptyString else String c EmptyString
      | r => String c r
      end
  end.

(** [s.strip()] *)
Definition strip (s : string) : string := rstrip (lstrip s).

(** [p in t] for two strings: [p] occurs in [t]. *)
Fixpoint occurs (p t : string) : bool :=
  String.prefix p t ||
  match t with
  | EmptyString => false
  | String _ t' => occurs p t'
  end.

(** [s in v] for a string [s]: key of a [dict], item of a [list],
    substring of a [str]; [TypeError] ([None]) on anything else. *)
Definition str_in (s : string) (v : value) : option bool :=
  match v with
  | VDict d => Some (contains s d)
  | VList l => Some (existsb (fun x => eq_str x s) l)
  | VStr t => Some (occurs s t)
  | _ => None
  end.

(** [v[k]] for a string key [k]: [KeyError] or [TypeError] is [None]. *)
Definition subscript (v : value) (k : string) : option value :=
  match v with
  | VDict d => lookup k d
  | _ => None
  end.

(** [v.get(k, default)]: only a [dict] has the method ([AttributeError]). *)
Definition attr_get (v : value) (k : string) (default : value) : option value :=
  match v with
  | VDict d => Some (get d k default)
  | _ => None
  end.

(** Outcome of [json.loads(text)]: the decoded document, a
    [JSONDecodeError], or another exception (a nesting too deep for the
    interpreter, an integer literal beyond the digit limit). *)
Inductive load_result :=
| Loaded (v : value)
| DecodeError
| OtherError.

(** [str(n)] for a non-negative [int]. *)
Definition str_of_nat (n : nat) : string :=
  NilEmpty.string_of_uint (Nat.to_uint n).

End Py.


(** ** tools/conversation_processor.py *)
Module ConversationProcessor.
Import Py.

Module ConversationMessage.
Record t := mk {
  uuid : value;
  timestamp : value;
  message_type : value;
  content : string;
  tool_uses : list value;
  tool_results : list value;
  session_id : value;
  parent_uuid : value;
  cwd : value;
  git_branch : value
}.
End ConversationMessage.

Module ConversationSession.
Record t := mk {
  session_id : value;
  project_name : string;
  messages : list ConversationMessage.t;
  file_path : string;
  total_messages : nat;
  user_messages : nat;
  assistant_messages : nat;
  tool_uses : nat
}.
End ConversationSession.

(** A [pathlib.Path] as the program observes it: its [parts], its [stem]
    and [str(path)]. *)
Record Path := {
  parts : list string;
  stem : string;
  path_str : string
}.

(** What reading the file gives: the [lines] the iteration yields and
    whether it then raises (a file that cannot be opened yields no line
    and raises). *)
Record file_read := {
  lines : list string;
  read_error : bool
}.

(** Lines printed on standard output (the text of the exception left out). *)
Inductive event :=
| WarnJSONDecode (file : string) (line_num : nat)
| ErrorParsingMessage
| ErrorProcessing (file : string).

(** State of the [for item in msg['content']] loop. *)
Record blocks := {
  b_content : string;
  b_tool_uses : list value;
  b_tool_results : list value
}.

(** One iteration over a content block (lines 133-147). *)
Definition block_step (st : blocks) (item : value) : option blocks :=
  match item with
  | VDict it =>
      if eq_str (get it "type" VNone) "text" then
        match add (VStr (b_content st)) (get it "text" (VStr "")) with
        | Some (VStr c) =>
            Some {| b_content := c;
                    b_tool_uses := b_tool_uses st;
                    b_tool_results := b_tool_results st |}
        | _ => None
        end
      else if eq_str (get it "type" VNone) "tool_use" then
        Some {| b_content := b_content st;
                b_tool_uses := b_tool_uses st ++
                  [VDict [("name", get it "name" (VStr ""));
                          ("input", get it "input" (VDict []));
                          ("id", get it "id" (VStr ""))]];
                b_tool_results := b_tool_results st |}
      else if eq_str (get it "type" VNone) "tool_result" then
        Some {| b_content := b_content st;
                b_tool_uses := b_tool_uses st;
                b_tool_results := b_tool_results st ++
                  [VDict [("content", get it "content" (VStr ""));
                          ("tool_use_id", get it "tool_use_id" (VStr ""));
                          ("is_error", get it "is_error" (VBool false))]] |}
      else Some st
  | _ => Some st
  end.

Fixpoint block_loop (st : blocks) (items : list value) : option blocks :=
  match items with
  | [] => Some st
  | item :: rest => st' ← block_step st item; block_loop st' rest
  end.

(** Lines 119-147: content, tool uses and tool results of the record. *)
Definition message_body (data : dict) : option blocks :=
  let st := {| b_content := ""; b_tool_uses := []; b_tool_results := [] |} in
  if contains "message" data then
    msg ← lookup "message" data;
    has ← str_in "content" msg;
    if has : bool then
      c ← subscript msg "content";
      match c with
      | VStr s =>
          Some {| b_content := s; b_tool_uses := []; b_tool_results := [] |}
      | VList items => block_loop st items
      | _ => Some st
      end
    else Some st
  else Some st.

(** Lines 149-155: the [toolUseResult] of the record folded into the tool
    results. *)
Definition side_channel (data : dict) (tool_results : list value)
  : option (list value) :=
  if contains "toolUseResult" data then
    r ← lookup "toolUseResult" data;
    out ← attr_get r "stdout" (VStr "");
    err ← attr_get r "stderr" (VStr "");
    c ← add out err;
    err' ← attr_get r "stderr" (VStr "");
    interrupted ← attr_get r "interrupted" (VBool false);
    Some (tool_results ++
          [VDict [("content", c);
                  ("is_error", VBool (negb (eq_str err' "")));
                  ("interrupted", interrupted)]])
  else Some tool_results.

(** Body of the [try] of [_parse_message]: the outer [None] is a raised
    exception, the inner one the returned [None]. *)
Definition parse_message_try (data : value)
  : option (option ConversationMessage.t) :=
  match data with
  | VDict d =>
      if negb (eq_str (get d "type" VNone) "user"
               || eq_str (get d "type" VNone) "assistant")
      then Some None
      else
        st ← message_body d;
        tool_results ← side_channel d (b_tool_results st);
        Some (Some {|
          ConversationMessage.uuid := get d "uuid" (VStr "");
          ConversationMessage.timestamp := get d "timestamp" (VStr "");
          ConversationMessage.message_type := get d "type" (VStr "");
          ConversationMessage.content := strip (b_content st);
          ConversationMessage.tool_uses := b_tool_uses st;
          ConversationMessage.tool_results := tool_results;
          ConversationMessage.session_id := get d "sessionId" (VStr "");
          ConversationMessage.parent_uuid := get d "parentUuid" VNone;
          ConversationMessage.cwd := get d "cwd" (VStr "");
          ConversationMessage.git_branch := get d "gitBranch" (VStr "")
        |})
  | _ => None
  end.

Definition _parse_message (data : value)
  : option ConversationMessage.t * list event :=
  match parse_message_try data with
  | Some r => (r, [])
  | None => (None, [ErrorParsingMessage])
  end.

Definition _extract_project_name (file_path : Path) : string :=
  if existsb (String.eqb "agrama") (parts file_path) then "agrama"
  else if existsb (String.eqb "agentprobe") (parts file_path) then "agentprobe"
  else "unknown".

Section Parser.

(** [json.loads], of the standard library. *)
Variable json_loads : string -> load_result.

(** State of the loop over the lines of the file. *)
Record reading := {
  r_messages : list ConversationMessage.t;
  r_session_id : value;
  r_out : list event
}.

(** One iteration (lines 65-79); [inl] is an exception leaving the loop,
    with what was printed so far. *)
Definition line_step (file_path : Path) (line_num : nat) (line : string)
    (st : reading) : list event + reading :=
  let line := strip line in
  if String.eqb line "" then inr st
  else
    match json_loads line with
    | Loaded data =>
        let '(message, printed) := _parse_message data in
        match message with
        | Some m =>
            inr {| r_messages := r_messages st ++ [m];
                   r_session_id :=
                     if negb (truthy (r_session_id st))
                     then ConversationMessage.session_id m
                     else r_session_id st;
                   r_out := r_out st ++ printed |}
        | None =>
            inr {| r_messages := r_messages st;
                   r_session_id := r_session_id st;
                   r_out := r_out st ++ printed |}
        end
    | DecodeError =>
        inr {| r_messages := r_messages st;
               r_session_id := r_session_id st;
               r_out := r_out st ++
                 [WarnJSONDecode (path_str file_path) line_num] |}
    | OtherError => inl (r_out st)
    end.

Fixpoint line_loop (file_path : Path) (line_num : nat) (ls : list string)
    (st : reading) : list event + reading :=
  match ls with
  | [] => inr st
  | line :: rest =>
      match line_step file_path line_num line st with
      | inr st' => line_loop file_path (S line_num) rest st'
      | inl printed => inl printed
      end
  end.

Definition count_type (ty : string) (ms : list ConversationMessage.t) : nat :=
  length (filter (fun m => eq_str (ConversationMessage.message_type m) ty = true) ms).

Definition count_tool_uses (ms : list ConversationMessage.t) : nat :=
  list_sum (map (fun m => length (ConversationMessage.tool_uses m)) ms).

Definition parse_jsonl_file (file_path : Path) (f : file_read)
  : option ConversationSession.t * list event :=
  let start := {| r_messages := []; r_session_id := VNone; r_out := [] |} in
  match line_loop file_path 0 (lines f) start with
  | inl printed => (None, printed ++ [ErrorProcessing (path_str file_path)])
  | inr st =>
      if read_error f
      then (None, r_out st ++ [ErrorProcessing (path_str file_path)])
      else
        match r_messages st with
        | [] => (None, r_out st)
        | messages =>
            (Some {|
               ConversationSession.session_id :=
                 if truthy (r_session_id st) then r_session_id st
                 else VStr (stem file_path);
               ConversationSession.project_name :=
                 _extract_project_name file_path;
               ConversationSession.messages := messages;
               ConversationSession.file_path := path_str file_path;
               ConversationSession.total_messages := length messages;
               ConversationSession.user_messages := count_type "user" messages;
               ConversationSession.assistant_messages :=
                 count_type "assistant" messages;
               ConversationSession.tool_uses := count_tool_uses messages
             |}, r_out st)
        end
  end.

End Parser.

End ConversationProcessor.

(** ** tools/llm_analyzer.py *)
Module LLMAnalyzer.
Import Py.

Module Entity.
Record t := mk {
  id : value;
  name : value;
  entity_type : value;
  confidence : value;
  content : value;
  context : value;
  attributes : value
}.
End Entity.

Module Relationship.
Record t := mk {
  from_entity : value;
  to_entity : value;
  relationship_type : value;
  confidence : value;
  evidence : value;
  attributes : value
}.
End Relationship.

Module AnalysisResult.
Record t := mk {
  session_id : string;
  message_uuid : string;
  entities : list Entity.t;
  relationships : list Relationship.t;
  concepts : value;
  analysis_timestamp : value;
  model_version : value
}.
End AnalysisResult.

(** [AnalysisResult(session_id=..., message_uuid=...)]: the other fields
    take their defaults. *)
Definition empty_result (session_id message_uuid : string) : AnalysisResult.t :=
  {| AnalysisResult.session_id := session_id;
     AnalysisResult.message_uuid := message_uuid;
     AnalysisResult.entities := [];
     AnalysisResult.relationships := [];
     AnalysisResult.concepts := VList [];
     AnalysisResult.analysis_timestamp := VStr "";
     AnalysisResult.model_version := VStr "" |}.

(** [dataclasses.asdict] *)
Definition asdict_entity (e : Entity.t) : value :=
  VDict [("id", Entity.id e);
         ("name", Entity.name e);
         ("entity_type", Entity.entity_type e);
         ("confidence", Entity.confidence e);
         ("content", Entity.content e);
         ("context", Entity.context e);
         ("attributes", Entity.attributes e)].

Definition asdict_relationship (r : Relationship.t) : value :=
  VDict [("from_entity", Relationship.from_entity r);
         ("to_entity", Relationship.to_entity r);
         ("relationship_type", Relationship.relationship_type r);
         ("confidence", Relationship.confidence r);
         ("evidence", Relationship.evidence r);
         ("attributes", Relationship.attributes r)].

(** Every key of [d] is one of [names]. *)
Definition keys_among (names : list string) (d : dict) : bool :=
  forallb (fun kv => existsb (String.eqb (fst kv)) names) d.

(** [Entity] applied to the keyword arguments [e]: [TypeError] ([None])
    when [e] is not a mapping, has a key that is not a field, or misses a
    field without default. *)
Definition entity_of_kwargs (e : value) : option Entity.t :=
  match e with
  | VDict d =>
      if keys_among ["id"; "name"; "entity_type"; "confidence"; "content";
                     "context"; "attributes"] d
      then
        i ← lookup "id" d;
        n ← lookup "name" d;
        t ← lookup "entity_type" d;
        c ← lookup "confidence" d;
        Some {| Entity.id := i;
                Entity.name := n;
                Entity.entity_type := t;
                Entity.confidence := c;
                Entity.content := get d "content" VNone;
                Entity.context := get d "context" VNone;
                Entity.attributes := get d "attributes" (VDict []) |}
      else None
  | _ => None
  end.

(** [Relationship] applied to the keyword arguments [r]. *)
Definition relationship_of_kwargs (r : value) : option Relationship.t :=
  match r with
  | VDict d =>
      if keys_among ["from_entity"; "to_entity"; "relationship_type";
                     "confidence"; "evidence"; "attributes"] d
      then
        f ← lookup "from_entity" d;
        t ← lookup "to_entity" d;
        k ← lookup "relationship_type" d;
        c ← lookup "confidence" d;
        Some {| Relationship.from_entity := f;
                Relationship.to_entity := t;
                Relationship.relationship_type := k;
                Relationship.confidence := c;
                Relationship.evidence := get d "evidence" (VStr "");
                Relationship.attributes := get d "attributes" (VDict []) |}
      else None
  | _ => None
  end.

(** A file of the cache directory: one that holds a JSON document, one
    that opens but does not hold valid JSON, one that cannot be opened. *)
Inductive cache_file :=
| ValidJSON (v : value)
| Corrupt
| Unreadable.

(** What the analyzer does to the outside, in order. *)
Inductive event :=
| CacheLookup (cache_key : string)
| Sleep (seconds : float)
| ApiCall (prompt : string)
| WarnCacheSave
| WarnNoJSON (message_uuid : string)
| WarnJSONParse (message_uuid : string)
| ErrorAnalyzing (message_uuid : string).

(** The outside: the files of the cache directory by cache key, the keys
    whose file cannot be opened for writing, and the events so far. *)
Record world := {
  files : gmap string cache_file;
  locked : gset string;
  trace : list event
}.

Definition emit (w : world) (e : event) : world :=
  {| files := files w; locked := locked w; trace := trace w ++ [e] |}.

(** A block of [response.content]; only a text block has [.text]. *)
Inductive content_block :=
| TextBlock (text : string)
| OtherBlock.

(** Outcome of [client.messages.create]. *)
Inductive api_result :=
| ApiRaises
| ApiResponse (content : list content_block).

(** The fields of the analyzer object. *)
Record t := {
  model : string;
  rate_limit_delay : float;
  total_api_calls : nat;
  cache_hits : nat;
  analysis_errors : nat
}.

Definition init : t :=
  {| model := "claude-sonnet-4-20250514";
     rate_limit_delay := 1.0%float;
     total_api_calls := 0;
     cache_hits := 0;
     analysis_errors := 0 |}.

Definition count_api_call (self : t) : t :=
  {| model := model self; rate_limit_delay := rate_limit_delay self;
     total_api_calls := S (total_api_calls self);
     cache_hits := cache_hits self;
     analysis_errors := analysis_errors self |}.

Definition count_cache_hit (self : t) : t :=
  {| model := model self; rate_limit_delay := rate_limit_delay self;
     total_api_calls := total_api_calls self;
     cache_hits := S (cache_hits self);
     analysis_errors := analysis_errors self |}.

Definition count_analysis_error (self : t) : t :=
  {| model := model self; rate_limit_delay := rate_limit_delay self;
     total_api_calls := total_api_calls self;
     cache_hits := cache_hits self;
     analysis_errors := S (analysis_errors self) |}.

(** Number of invocations of the external capability in a trace. *)
Definition is_api_call (e : event) : bool :=
  match e with ApiCall _ => true | _ => false end.

Definition api_calls (tr : list event) : nat :=
  length (filter (fun e => is_api_call e = true) tr).

Fixpoint skip (n : nat) (s : string) : string :=
  match n, s with
  | S n', String _ s' => skip n' s'
  | _, _ => s
  end.

(** The text after the first occurrence of [pat] in [s]. *)
Fixpoint find_after (pat s : string) : option string :=
  if String.prefix pat s then Some (skip (String.length pat) s)
  else match s with
       | EmptyString => None
       | String _ s' => find_after pat s'
       end.

(** The text before the first occurrence of [pat] in [s]. *)
Fixpoint find_before (pat s : string) : option string :=
  if String.prefix pat s then Some EmptyString
  else match s with
       | EmptyString => None
       | String c s' => String c <$> find_before pat s'
       end.

(** The text up to and including the last occurrence of character [c]. *)
Fixpoint upto_last (c : ascii) (s : string) : option string :=
  match s with
  | EmptyString => None
  | String a s' =>
      match upto_last c s' with
      | Some r => Some (String a r)
      | None => if Ascii.eqb a c then Some (String a EmptyString) else None
      end
  end.

Definition fence : string := "```".

(** [re.search(r'```json\s*(.*?)\s*```', content, re.DOTALL)], group 1.
    The leftmost match starts at the first [```json]; the greedy [\s*]
    takes all the white space after it, and the lazy group stops at the
    first point from which white space and a closing fence follow: it is
    the text before the next fence, without its trailing white space. *)
Definition search_fenced (content : string) : option string :=
  rest ← find_after (fence ++ "json") content;
  body ← find_before fence (lstrip rest);
  Some (rstrip body).

(** [re.search(r'\{.*\}', content, re.DOTALL)], group 0: from the first
    opening brace to the last closing brace after it. *)
Definition search_braces (content : string) : option string :=
  rest ← find_after "{" content;
  body ← upto_last "}" rest;
  Some (String "{" body).

(** Lines 194-205: the JSON text of the response, if any. *)
Definition extract_json (content : string) : option string :=
  match search_fenced content with
  | Some json_str => Some json_str
  | None => search_braces content
  end.

(** [response.content[0].text if response.content else ""] *)
Definition response_text (content : list content_block) : option string :=
  match content with
  | [] => Some ""
  | TextBlock text :: _ => Some text
  | OtherBlock :: _ => None
  end.

Definition create_analysis_prompt (instructions message_content context : string)
  : string :=
  "
You are analyzing a message from an AI-assisted software development conversation. Extract entities and relationships to build a knowledge graph.

CONTEXT: " ++ context ++ "

MESSAGE CONTENT:
" ++ message_content ++ instructions.

(** Lines 216 and 223: the identity of the [i]-th entity and the context
    stored with it. *)
Definition entity_id (session_id message_uuid : string) (i : nat) : string :=
  if negb (String.eqb message_uuid "")
  then session_id ++ "_" ++ message_uuid ++ "_" ++ str_of_nat i
  else session_id ++ "_" ++ str_of_nat i.

Definition entity_context (context : string) : value :=
  if negb (String.eqb context "") then VStr (String.substring 0 200 context)
  else VNone.

(** Lines 214-224: the loop over [enumerate(parsed.get('entities', []))]. *)
Fixpoint make_entities (session_id message_uuid context : string) (i : nat)
    (items : list value) : option (list Entity.t) :=
  match items with
  | [] => Some []
  | entity_data :: rest =>
      n ← attr_get entity_data "name" (VStr "");
      t ← attr_get entity_data "type" (VStr "");
      c ← attr_get entity_data "confidence" (VFloat 0%float);
      x ← attr_get entity_data "context" (VStr "");
      es ← make_entities session_id message_uuid context (S i) rest;
      Some ({| Entity.id := VStr (entity_id session_id message_uuid i);
               Entity.name := n;
               Entity.entity_type := t;
               Entity.confidence := c;
               Entity.content := x;
               Entity.context := entity_context context;
               Entity.attributes := VDict [] |} :: es)
  end.

(** Lines 227-235. *)
Fixpoint make_relationships (items : list value) : option (list Relationship.t) :=
  match items with
  | [] => Some []
  | rel_data :: rest =>
      f ← attr_get rel_data "from" (VStr "");
      t ← attr_get rel_data "to" (VStr "");
      k ← attr_get rel_data "type" (VStr "");
      c ← attr_get rel_data "confidence" (VFloat 0%float);
      e ← attr_get rel_data "evidence" (VStr "");
      rs ← make_relationships rest;
      Some ({| Relationship.from_entity := f;
               Relationship.to_entity := t;
               Relationship.relationship_type := k;
               Relationship.confidence := c;
               Relationship.evidence := e;
               Relationship.attributes := VDict [] |} :: rs)
  end.

(** Lines 213-245 up to the time stamp: entities, relationships and
    concepts of the parsed response; [None] is a raised exception. *)
Definition normalize (session_id message_uuid context : string) (parsed : value)
  : option (list Entity.t * list Relationship.t * value) :=
  ents ← attr_get parsed "entities" (VList []);
  items ← iter ents;
  entities ← make_entities session_id message_uuid context 0 items;
  rels ← attr_get parsed "relationships" (VList []);
  ritems ← iter rels;
  relationships ← make_relationships ritems;
  concepts ← attr_get parsed "concepts" (VList []);
  Some (entities, relationships, concepts).

(** Lines 248-254. *)
Definition cache_data (r : AnalysisResult.t) : value :=
  VDict [("entities", VList (map asdict_entity (AnalysisResult.entities r)));
         ("relationships",
          VList (map asdict_relationship (AnalysisResult.relationships r)));
         ("concepts", AnalysisResult.concepts r);
         ("analysis_timestamp", AnalysisResult.analysis_timestamp r);
         ("model_version", AnalysisResult.model_version r)].

(** Lines 166-174: the result rebuilt from a cached payload; [None] is a
    raised exception. *)
Definition result_from_cache (session_id message_uuid : string)
    (cached_result : value) : option AnalysisResult.t :=
  ents ← attr_get cached_result "entities" (VList []);
  items ← iter ents;
  entities ← mapM entity_of_kwargs items;
  rels ← attr_get cached_result "relationships" (VList []);
  ritems ← iter rels;
  relationships ← mapM relationship_of_kwargs ritems;
  concepts ← attr_get cached_result "concepts" (VList []);
  stamp ← attr_get cached_result "analysis_timestamp" (VStr "");
  version ← attr_get cached_result "model_version" (VStr "");
  Some {| AnalysisResult.session_id := session_id;
          AnalysisResult.message_uuid := message_uuid;
          AnalysisResult.entities := entities;
          AnalysisResult.relationships := relationships;
          AnalysisResult.concepts := concepts;
          AnalysisResult.analysis_timestamp := stamp;
          AnalysisResult.model_version := version |}.

(** [_load_from_cache]: the counter is incremented once the file is open,
    before its content is decoded. *)
Definition _load_from_cache (self : t) (w : world) (cache_key : string)
  : t * world * option value :=
  let w := emit w (CacheLookup cache_key) in
  match files w !! cache_key with
  | Some (ValidJSON v) => (count_cache_hit self, w, Some v)
  | Some Corrupt => (count_cache_hit self, w, None)
  | Some Unreadable => (self, w, None)
  | None => (self, w, None)
  end.

(** [_save_to_cache]: [json.dump] writes a document that [json.load] reads
    back as the same value. *)
Definition _save_to_cache (w : world) (cache_key : string) (result : value)
  : world :=
  if decide (cache_key ∈ locked w) then emit w WarnCacheSave
  else {| files := <[cache_key := ValidJSON result]> (files w);
          locked := locked w;
          trace := trace w |}.

Section Analyzer.

(** [hashlib.sha256(content.encode()).hexdigest()[:16]] *)
Variable sha256_hex16 : string -> string.

(** [json.loads], of the standard library. *)
Variable json_loads : string -> load_result.

(** The fixed text of the prompt after the message (lines 113-150). *)
Variable instructions : string.

(** The external capability: what [client.messages.create] does on its
    [n]-th invocation, given the prompt. *)
Variable messages_create : nat -> string -> api_result.

(** [str(time.time())] read after [n] events. *)
Variable time_time : nat -> string.

Definition _create_cache_key (content : string) : string :=
  sha256_hex16 content.

(** Lines 176-257, the body of the [try]: the analyzer, the world and the
    value returned, [None] when an exception is raised. *)
Definition analyze_try (self : t) (w : world) (cache_key : string)
    (message_content context session_id message_uuid : string)
  : t * world * option AnalysisResult.t :=
  let w := emit w (Sleep (rate_limit_delay self)) in
  let prompt := create_analysis_prompt instructions message_content context in
  let n := api_calls (trace w) in
  let w := emit w (ApiCall prompt) in
  match messages_create n prompt with
  | ApiRaises => (self, w, None)
  | ApiResponse blocks =>
      let self := count_api_call self in
      match response_text blocks with
      | None => (self, w, None)
      | Some content =>
          match extract_json content with
          | None =>
              (self, emit w (WarnNoJSON message_uuid),
               Some (empty_result session_id message_uuid))
          | Some json_str =>
              match json_loads json_str with
              | DecodeError =>
                  (self, emit w (WarnJSONParse message_uuid),
                   Some (empty_result session_id message_uuid))
              | OtherError => (self, w, None)
              | Loaded parsed =>
                  match normalize session_id message_uuid context parsed with
                  | None => (self, w, None)
                  | Some (entities, relationships, concepts) =>
                      let result :=
                        {| AnalysisResult.session_id := session_id;
                           AnalysisResult.message_uuid := message_uuid;
                           AnalysisResult.entities := entities;
                           AnalysisResult.relationships := relationships;
                           AnalysisResult.concepts := concepts;
                           AnalysisResult.analysis_timestamp :=
                             VStr (time_time (length (trace w)));
                           AnalysisResult.model_version := VStr (model self) |} in
                      (self, _save_to_cache w cache_key (cache_data result),
                       Some result)
                  end
              end
          end
      end
  end.

(** Lines 176-262: the [try] with its handler. *)
Definition analyze_miss (self : t) (w : world) (cache_key : string)
    (message_content context session_id message_uuid : string)
  : t * world * option AnalysisResult.t :=
  match analyze_try self w cache_key message_content context
          session_id message_uuid with
  | (self, w, Some r) => (self, w, Some r)
  | (self, w, None) =>
      (count_analysis_error self, emit w (ErrorAnalyzing message_uuid),
       Some (empty_result session_id message_uuid))
  end.

(** [if cached_result:] *)
Definition cache_hit (cached_result : option value) : option value :=
  match cached_result with
  | Some cached => if truthy cached then Some cached else None
  | None => None
  end.

(** [analyze_message]; the value returned is [None] when an exception
    leaves the method. *)
Definition analyze_message (self : t) (w : world)
    (message_content context session_id message_uuid : string)
  : t * world * option AnalysisResult.t :=
  if String.eqb message_content ""
     || Nat.ltb (String.length (strip message_content)) 20
  then (self, w, Some (empty_result session_id message_uuid))
  else
    let cache_key := _create_cache_key (message_content ++ context) in
    let '(self, w, cached_result) := _load_from_cache self w cache_key in
    match cache_hit cached_result with
    | Some cached =>
        (self, w, result_from_cache session_id message_uuid cached)
    | None =>
        analyze_miss self w cache_key message_content context
          session_id message_uuid
    end.

(** The arguments of one call of [analyze_message]. *)
Record call := {
  c_content : string;
  c_context : string;
  c_session_id : string;
  c_message_uuid : string
}.

(** A client calling [analyze_message] on each of [calls] in turn, until
    one raises. *)
Fixpoint analyze_each (self : t) (w : world) (calls : list call)
  : t * world * list AnalysisResult.t :=
  match calls with
  | [] => (self, w, [])
  | c :: rest =>
      match analyze_message self w (c_content c) (c_context c)
              (c_session_id c) (c_message_uuid c) with
      | (self, w, Some r) =>
          let '(self, w, rs) := analyze_each self w rest in
          (self, w, r :: rs)
      | (self, w, None) => (self, w, [])
      end
  end.

End Analyzer.

End LLMAnalyzer.

(** ** tools/llm_enhanced_processor.py *)
Module LLMEnhancedProcessor.
Import Py.

Module CodeEntity.
Record t := mk {
  name : string;
  type : string;
  description : string;
  file_path : option string;
  line_number : option Z;
  language : option string
}.
End CodeEntity.

Module Relationship.
Record t := mk {
  source : string;
  target : string;
  type : string;
  confidence : float;
  context : string
}.
End Relationship.

Module GraphData.
Record t := mk {
  entities : list CodeEntity.t;
  relationships : list Relationship.t;
  metadata : dict
}.
End GraphData.

Definition optional {A} (f : A -> value) (o : option A) : value :=
  match o with Some a => f a | None => VNone end.

(** [dataclasses.asdict] *)
Definition asdict_entity (e : CodeEntity.t) : value :=
  VDict [("name", VStr (CodeEntity.name e));
         ("type", VStr (CodeEntity.type e));
         ("description", VStr (CodeEntity.description e));
         ("file_path", optional VStr (CodeEntity.file_path e));
         ("line_number", optional VInt (CodeEntity.line_number e));
         ("language", optional VStr (CodeEntity.language e))].

Definition asdict_relationship (r : Relationship.t) : value :=
  VDict [("source", VStr (Relationship.source r));
         ("target", VStr (Relationship.target r));
         ("type", VStr (Relationship.type r));
         ("confidence", VFloat (Relationship.confidence r));
         ("context", VStr (Relationship.context r))].

(** Lines printed on standard output. *)
Inductive event :=
| MergedSaved (output_path : string) (total_entities total_relationships : nat).

(** The outside: the JSON documents written, by path, the paths that
    cannot be opened for writing, and what was printed. *)
Record world := {
  files : gmap string value;
  locked : gset string;
  printed : list event
}.

(** A [list] or a [dict] cannot be put in a [set] ([TypeError]). *)
Definition hashable (v : value) : bool :=
  match v with
  | VList _ | VDict _ => false
  | _ => true
  end.

(** State of the loop over [graph_data_list] (lines 281-289); [projects]
    holds the labels added to the set, in the order of the additions. *)
Record merging := {
  entity_names : gset string;
  all_entities : list CodeEntity.t;
  all_relationships : list Relationship.t;
  projects : list value
}.

(** Lines 283-286. *)
Fixpoint add_entities (entity_names : gset string)
    (all_entities : list CodeEntity.t) (entities : list CodeEntity.t)
  : gset string * list CodeEntity.t :=
  match entities with
  | [] => (entity_names, all_entities)
  | entity :: rest =>
      if decide (CodeEntity.name entity ∈ entity_names)
      then add_entities entity_names all_entities rest
      else add_entities ({[CodeEntity.name entity]} ∪ entity_names)
                        (all_entities ++ [entity]) rest
  end.

(** One iteration over a graph; [None] is a raised exception. *)
Definition merge_step (st : merging) (graph : GraphData.t) : option merging :=
  let '(names, ents) :=
    add_entities (entity_names st) (all_entities st) (GraphData.entities graph) in
  let label := get (GraphData.metadata graph) "project_name" (VStr "unknown") in
  if hashable label
  then Some {| entity_names := names;
               all_entities := ents;
               all_relationships :=
                 all_relationships st ++ GraphData.relationships graph;
               projects := projects st ++ [label] |}
  else None.

Fixpoint merge_loop (st : merging) (graphs : list GraphData.t) : option merging :=
  match graphs with
  | [] => Some st
  | graph :: rest => st' ← merge_step st graph; merge_loop st' rest
  end.

Section Merger.

(** [str(datetime.datetime.now())] at the time of the merge. *)
Variable now : string.

(** [list(s)] for the set [s] to which the given labels were added in
    turn: the distinct labels, in the order of the interpreter. *)
Variable list_of_set : list value -> list value.

(** [merge_graphs]: the world after the call and the merged graph, [None]
    when an exception leaves the method. *)
Definition merge_graphs (w : world) (graph_data_list : list GraphData.t)
    (output_path : string) : world * option GraphData.t :=
  let start := {| entity_names := ∅; all_entities := [];
                  all_relationships := []; projects := [] |} in
  match merge_loop start graph_data_list with
  | None => (w, None)
  | Some st =>
      let merged_metadata : dict :=
        [("total_sessions", VInt (Z.of_nat (length graph_data_list)));
         ("projects", VList (list_of_set (projects st)));
         ("merge_timestamp", VStr now);
         ("total_entities", VInt (Z.of_nat (length (all_entities st))));
         ("total_relationships",
          VInt (Z.of_nat (length (all_relationships st))))] in
      let merged_graph :=
        {| GraphData.entities := all_entities st;
           GraphData.relationships := all_relationships st;
           GraphData.metadata := merged_metadata |} in
      if decide (output_path ∈ locked w) then (w, None)
      else
        let serializable_data :=
          VDict [("entities", VList (map asdict_entity (all_entities st)));
                 ("relationships",
                  VList (map asdict_relationship (all_relationships st)));
                 ("metadata", VDict merged_metadata)] in
        ({| files := <[output_path := serializable_data]> (files w);
            locked := locked w;
            printed := printed w ++
              [MergedSaved output_path (length (all_entities st))
                 (length (all_relationships st))] |},
         Some merged_graph)
  end.

End Merger.

End LLMEnhancedProcessor.

(** * Properties *)

(** ** Python values at work *)
Module PyExamples.
Import Py.

Example strip_both_ends : strip (String (ascii_of_nat 9) "  a b
 ") = "a b".
Proof. reflexivity. Qed.

Example add_texts : add (VStr "out") (VStr "err") = Some (VStr "outerr").
Proof. reflexivity. Qed.

Example add_numbers :
  add (VBool true) (VFloat 1.5%float) = Some (VFloat 2.5%float).
Proof. reflexivity. Qed.

Example add_text_number : add (VStr "out") (VInt 1) = None.
Proof. reflexivity. Qed.

Example add_none : add VNone (VStr "err") = None.
Proof. reflexivity. Qed.

Example content_in_text : str_in "content" (VStr "no content here") = Some true.
Proof. reflexivity. Qed.

Example content_in_number : str_in "content" (VInt 5) = None.
Proof. reflexivity. Qed.

End PyExamples.

(** ** The graph merger *)
Module MergerProperties.
Import Py LLMEnhancedProcessor.

(** The entities of [entities] that the loop of lines 283-286 appends when
    it starts with the names [seen]. *)
Fixpoint kept (seen : gset string) (entities : list CodeEntity.t)
  : list CodeEntity.t :=
  match entities with
  | [] => []
  | e :: rest =>
      if decide (CodeEntity.name e ∈ seen) then kept seen rest
      else e :: kept ({[CodeEntity.name e]} ∪ seen) rest
  end.

Definition names_of (es : list CodeEntity.t) : gset string :=
  list_to_set (map CodeEntity.name es).

Definition named (n : string) (e : CodeEntity.t) : Prop := CodeEntity.name e = n.

#[local] Instance named_dec n e : Decision (named n e).
Proof. unfold named; apply _. Defined.

Lemma add_entities_kept es : forall seen acc,
  add_entities seen acc es = (names_of (kept seen es) ∪ seen, acc ++ kept seen es).
Proof.
  induction es as [|e es IH]; intros seen acc; simpl.
  - unfold names_of; simpl. f_equal; [set_solver | by rewrite app_nil_r].
  - destruct (decide (CodeEntity.name e ∈ seen)) as [Hin|Hin].
    + apply IH.
    + rewrite IH. unfold names_of; simpl. f_equal; [set_solver|].
      by rewrite <- app_assoc.
Qed.

Lemma kept_app es1 : forall seen es2,
  kept seen (es1 ++ es2) = kept seen es1 ++ kept (names_of (kept seen es1) ∪ seen) es2.
Proof.
  induction es1 as [|e es1 IH]; intros seen es2; simpl.
  - unfold names_of; simpl. f_equal. set_solver.
  - destruct (decide (CodeEntity.name e ∈ seen)) as [Hin|Hin].
    + apply IH.
    + simpl. rewrite IH.
      replace (names_of (e :: kept ({[CodeEntity.name e]} ∪ seen) es1) ∪ seen)
        with (names_of (kept ({[CodeEntity.name e]} ∪ seen) es1)
              ∪ ({[CodeEntity.name e]} ∪ seen)); [done|].
      unfold names_of; simpl. set_solver.
Qed.

Lemma filter_kept n es : forall seen,
  filter (named n) (kept seen es) =
  if decide (n ∈ seen) then [] else take 1 (filter (named n) es).
Proof.
  induction es as [|e es IH]; intros seen; simpl.
  - by destruct (decide (n ∈ seen)).
  - destruct (decide (CodeEntity.name e ∈ seen)) as [Hin|Hin].
    + rewrite IH. destruct (decide (n ∈ seen)) as [|Hn]; [done|].
      rewrite filter_cons_False; [done|].
      unfold named; intros Heq; apply Hn; by rewrite <- Heq.
    + destruct (decide (named n e)) as [Hne|Hne].
      * rewrite !filter_cons_True by done. rewrite IH.
        unfold named in Hne; subst n.
        destruct (decide (CodeEntity.name e ∈ seen)); [contradiction|].
        destruct (decide (CodeEntity.name e ∈ {[CodeEntity.name e]} ∪ seen));
          [done | set_solver].
      * rewrite !filter_cons_False by done. rewrite IH.
        unfold named in Hne.
        destruct (decide (n ∈ seen)), (decide (n ∈ {[CodeEntity.name e]} ∪ seen));
          try done; set_solver.
Qed.

Lemma kept_sublist es : forall seen, kept seen es `sublist_of` es.
Proof.
  induction es as [|e es IH]; intros seen; simpl; [constructor|].
  destruct (decide (CodeEntity.name e ∈ seen)).
  - by apply sublist_cons.
  - by apply sublist_skip.
Qed.

(** The loop over the graphs, from a state whose set holds the names of
    the entities collected so far. *)
Lemma merge_loop_spec graphs : forall st st',
  entity_names st = names_of (all_entities st) ->
  merge_loop st graphs = Some st' ->
  entity_names st' = names_of (all_entities st') /\
  all_entities st' =
    all_entities st ++ kept (entity_names st) (concat (map GraphData.entities graphs)) /\
  all_relationships st' =
    all_relationships st ++ concat (map GraphData.relationships graphs).
Proof.
  induction graphs as [|g graphs IH]; intros st st' Hinv Hloop; simpl in *.
  - inversion Hloop; subst. by rewrite !app_nil_r.
  - unfold merge_step in Hloop. rewrite add_entities_kept in Hloop.
    destruct (hashable _); simpl in Hloop; [|discriminate].
    apply IH in Hloop; simpl in *.
    + destruct Hloop as (Hn & He & Hr). split; [done|]. split.
      * rewrite He, kept_app, <- app_assoc. done.
      * rewrite Hr, <- app_assoc. done.
    + rewrite Hinv. unfold names_of. rewrite map_app, list_to_set_app_L.
      set_solver.
Qed.

Definition label_ok (g : GraphData.t) : Prop :=
  hashable (get (GraphData.metadata g) "project_name" (VStr "unknown")) = true.

Lemma merge_loop_total graphs : forall st,
  Forall label_ok graphs -> exists st', merge_loop st graphs = Some st'.
Proof.
  induction graphs as [|g graphs IH]; intros st Hok; simpl; [by eexists|].
  inversion Hok as [|? ? Hg Hrest]; subst.
  unfold merge_step. destruct (add_entities _ _ _) as [names ents].
  unfold label_ok in Hg. rewrite Hg. simpl. apply IH, Hrest.
Qed.

Section Merge.

Variable now : string.
Variable list_of_set : list value -> list value.

(** What [merge_graphs] returns whenever it returns. *)
Lemma merge_graphs_returns w graphs output_path :
  Forall label_ok graphs ->
  output_path ∉ locked w ->
  exists w' merged,
    merge_graphs now list_of_set w graphs output_path = (w', Some merged) /\
    GraphData.entities merged = kept ∅ (concat (map GraphData.entities graphs)) /\
    GraphData.relationships merged = concat (map GraphData.relationships graphs).
Proof.
  intros Hok Hw. unfold merge_graphs.
  destruct (merge_loop_total graphs
              {| entity_names := ∅; all_entities := [];
                 all_relationships := []; projects := [] |} Hok) as [st Hst].
  rewrite Hst.
  apply merge_loop_spec in Hst; [|done]. simpl in Hst.
  destruct Hst as (_ & He & Hr).
  destruct (decide (output_path ∈ locked w)); [contradiction|].
  do 2 eexists. split; [reflexivity|]. simpl. done.
Qed.

End Merge.

Lemma length_concat_sum {A B} (f : A -> list B) (l : list A) :
  length (concat (map f l)) = list_sum (map (fun x => length (f x)) l).
Proof.
  induction l as [|x l IH]; simpl; [done|].
  by rewrite length_app, IH.
Qed.

(** Two graphs that both have an entity named [X], with different
    descriptions, the second with a relationship between names that no
    entity carries. *)
Definition entity_X (description : string) : CodeEntity.t :=
  {| CodeEntity.name := "X"; CodeEntity.type := "function";
     CodeEntity.description := description;
     CodeEntity.file_path := None; CodeEntity.line_number := None;
     CodeEntity.language := None |}.

Definition calls (source target : string) : Relationship.t :=
  {| Relationship.source := source; Relationship.target := target;
     Relationship.type := "calls"; Relationship.confidence := 0.5%float;
     Relationship.context := "" |}.

Definition graph_1 : GraphData.t :=
  {| GraphData.entities := [entity_X "first"];
     GraphData.relationships := [calls "X" "X"];
     GraphData.metadata := [("project_name", VStr "agrama")] |}.

Definition graph_2 : GraphData.t :=
  {| GraphData.entities := [entity_X "second"];
     GraphData.relationships := [calls "X" "X"; calls "ghost" "nowhere"];
     GraphData.metadata := [] |}.

Definition fresh_world : world :=
  {| files := ∅; locked := ∅; printed := [] |}.

(** C2. For every sequence of input graphs, [merge_graphs] keeps for each
    entity name exactly the first entity with that name in input order:
    the merged entities named [n] are the first entity named [n] of the
    concatenated inputs (none when there is none), whatever the later
    entities of that name carry, and the merged entities come in input
    order.  For two graphs with an entity named X each, the one entity
    named X is that of the graph merged first. *)
Theorem merge_graphs_first_seen_wins
    (now : string) (list_of_set : list value -> list value)
    (w : world) (graphs : list GraphData.t) (output_path : string) :
  Forall label_ok graphs ->
  output_path ∉ locked w ->
  exists w' merged,
    merge_graphs now list_of_set w graphs output_path = (w', Some merged) /\
    (forall n,
        filter (named n) (GraphData.entities merged) =
        take 1 (filter (named n) (concat (map GraphData.entities graphs)))) /\
    GraphData.entities merged `sublist_of` concat (map GraphData.entities graphs).
Proof.
  intros Hok Hw.
  destruct (merge_graphs_returns now list_of_set w graphs output_path Hok Hw)
    as (w' & merged & Hrun & He & _).
  exists w', merged. split; [done|]. rewrite He. split.
  - intros n. rewrite filter_kept.
    destruct (decide (n ∈ (∅ : gset string))); [set_solver | done].
  - apply kept_sublist.
Qed.

Lemma merge_graphs_first_seen_wins_witness :
  exists w' merged,
    merge_graphs "2025-01-01" (fun l => l) fresh_world [graph_1; graph_2]
      "unified_knowledge_graph.json" = (w', Some merged) /\
    (forall n,
        filter (named n) (GraphData.entities merged) =
        take 1 (filter (named n)
                  (concat (map GraphData.entities [graph_1; graph_2])))) /\
    GraphData.entities merged
      `sublist_of` concat (map GraphData.entities [graph_1; graph_2]).
Proof.
  apply (merge_graphs_first_seen_wins "2025-01-01" (fun l => l) fresh_world
           [graph_1; graph_2] "unified_knowledge_graph.json").
  - repeat constructor.
  - apply not_elem_of_empty.
Defined.

(** The two graphs merged: one entity named X, described as in the first. *)
Example merge_two_graphs_entities :
  GraphData.entities <$>
    (merge_graphs "2025-01-01" (fun l => l) fresh_world [graph_1; graph_2]
       "unified_knowledge_graph.json").2
  = Some [entity_X "first"].
Proof. vm_compute. reflexivity. Qed.

(** C4. For every sequence of input graphs, the relationships of the graph
    [merge_graphs] returns are those of the inputs concatenated in input
    order: their number is the sum of the inputs' numbers, none is merged
    with another and none is dropped for naming no merged entity. *)
Theorem merge_graphs_keeps_all_relationships
    (now : string) (list_of_set : list value -> list value)
    (w : world) (graphs : list GraphData.t) (output_path : string) :
  Forall label_ok graphs ->
  output_path ∉ locked w ->
  exists w' merged,
    merge_graphs now list_of_set w graphs output_path = (w', Some merged) /\
    GraphData.relationships merged = concat (map GraphData.relationships graphs) /\
    length (GraphData.relationships merged) =
      list_sum (map (fun g => length (GraphData.relationships g)) graphs).
Proof.
  intros Hok Hw.
  destruct (merge_graphs_returns now list_of_set w graphs output_path Hok Hw)
    as (w' & merged & Hrun & _ & Hr).
  exists w', merged. split; [done|]. split; [done|].
  rewrite Hr. apply length_concat_sum.
Qed.

Lemma merge_graphs_keeps_all_relationships_witness :
  exists w' merged,
    merge_graphs "2025-01-01" (fun l => l) fresh_world [graph_1; graph_2]
      "unified_knowledge_graph.json" = (w', Some merged) /\
    GraphData.relationships merged =
      concat (map GraphData.relationships [graph_1; graph_2]) /\
    length (GraphData.relationships merged) =
      list_sum (map (fun g => length (GraphData.relationships g))
                  [graph_1; graph_2]).
Proof.
  apply (merge_graphs_keeps_all_relationships "2025-01-01" (fun l => l)
           fresh_world [graph_1; graph_2] "unified_knowledge_graph.json").
  - repeat constructor.
  - apply not_elem_of_empty.
Defined.

(** The two graphs merged: three relationships, the repeated one twice and
    the dangling one kept. *)
Example merge_two_graphs_relationships :
  GraphData.relationships <$>
    (merge_graphs "2025-01-01" (fun l => l) fresh_world [graph_1; graph_2]
       "unified_knowledge_graph.json").2
  = Some [calls "X" "X"; calls "X" "X"; calls "ghost" "nowhere"].
Proof. vm_compute. reflexivity. Qed.

End MergerProperties.

(** ** The log-to-session parser *)
Module ParserProperties.
Import Py ConversationProcessor.

Definition is_turn_type (v : value) : bool :=
  eq_str v "user" || eq_str v "assistant".

Lemma eq_str_true v s : eq_str v s = true -> v = VStr s.
Proof.
  destruct v; simpl; try discriminate.
  intros H. apply String.eqb_eq in H. by subst.
Qed.

Lemma get_default d k v1 v2 s :
  eq_str (get d k v1) s = true -> eq_str v1 s = false -> get d k v2 = VStr s.
Proof.
  unfold get. destruct (lookup k d) as [v|]; intros H1 H2.
  - by apply eq_str_true.
  - congruence.
Qed.

(** A message is only built from a record whose type is [user] or
    [assistant], and it carries that type. *)
Lemma parse_message_try_type data m :
  parse_message_try data = Some (Some m) ->
  exists d, data = VDict d /\
    is_turn_type (get d "type" VNone) = true /\
    (ConversationMessage.message_type m = VStr "user" \/
     ConversationMessage.message_type m = VStr "assistant").
Proof.
  destruct data as [| | | | | |d]; simpl; try discriminate.
  intros H. exists d. split; [done|].
  unfold is_turn_type.
  destruct (eq_str (get d "type" VNone) "user") eqn:Hu;
    destruct (eq_str (get d "type" VNone) "assistant") eqn:Ha;
    simpl in H; try discriminate;
    (split; [done|]);
    destruct (message_body d) as [st|]; simpl in H; try discriminate;
    destruct (side_channel d (b_tool_results st)) as [tr|]; simpl in H;
    try discriminate; inversion H; subst; simpl.
  - left. by apply (get_default d "type" VNone).
  - left. by apply (get_default d "type" VNone).
  - right. by apply (get_default d "type" VNone).
Qed.

Definition turn_message (m : ConversationMessage.t) : Prop :=
  ConversationMessage.message_type m = VStr "user" \/
  ConversationMessage.message_type m = VStr "assistant".

Lemma parse_message_turn data m out :
  _parse_message data = (Some m, out) -> turn_message m.
Proof.
  unfold _parse_message.
  destruct (parse_message_try data) as [[m'|]|] eqn:H; intros Heq;
    inversion Heq; subst.
  apply parse_message_try_type in H. destruct H as (d & _ & _ & H). exact H.
Qed.

Lemma count_types ms :
  Forall turn_message ms ->
  count_type "user" ms + count_type "assistant" ms = length ms.
Proof.
  unfold count_type.
  induction 1 as [|m ms Hm _ IH]; [done|].
  destruct Hm as [Hm|Hm].
  - rewrite filter_cons_True by (by rewrite Hm).
    rewrite filter_cons_False by (by rewrite Hm). simpl. lia.
  - rewrite filter_cons_False by (by rewrite Hm).
    rewrite filter_cons_True by (by rewrite Hm). simpl. lia.
Qed.

Section Parser.

Variable json_loads : string -> load_result.

Lemma line_step_turns file_path n line st st' :
  Forall turn_message (r_messages st) ->
  line_step json_loads file_path n line st = inr st' ->
  Forall turn_message (r_messages st').
Proof.
  intros Hst. unfold line_step.
  destruct (String.eqb (strip line) ""); [by intros [= <-]|].
  destruct (json_loads (strip line)) as [data| |]; try discriminate.
  - destruct (_parse_message data) as [[m|] printed] eqn:Hp;
      intros [= <-]; simpl; [|done].
    apply Forall_app. split; [done|].
    constructor; [|constructor]. eapply parse_message_turn, Hp.
  - by intros [= <-].
Qed.

Lemma line_loop_turns file_path ls : forall n st st',
  Forall turn_message (r_messages st) ->
  line_loop json_loads file_path n ls st = inr st' ->
  Forall turn_message (r_messages st').
Proof.
  induction ls as [|l ls IH]; intros n st st' Hst; simpl.
  - by intros [= <-].
  - destruct (line_step json_loads file_path n l st) as [|st1] eqn:Hs;
      [discriminate|].
    apply IH. eapply line_step_turns; eauto.
Qed.

(** The session returned carries the messages of the loop and the counts
    computed from them. *)
Lemma parse_jsonl_file_session file_path f s out :
  parse_jsonl_file json_loads file_path f = (Some s, out) ->
  Forall turn_message (ConversationSession.messages s) /\
  ConversationSession.total_messages s = length (ConversationSession.messages s) /\
  ConversationSession.user_messages s =
    count_type "user" (ConversationSession.messages s) /\
  ConversationSession.assistant_messages s =
    count_type "assistant" (ConversationSession.messages s) /\
  ConversationSession.tool_uses s = count_tool_uses (ConversationSession.messages s).
Proof.
  unfold parse_jsonl_file.
  destruct (line_loop _ _ _ _ _) as [|st] eqn:Hloop; [discriminate|].
  destruct (read_error f); [discriminate|].
  apply line_loop_turns in Hloop; [|constructor].
  destruct (r_messages st) as [|m ms] eqn:Hms; [discriminate|].
  intros [= <- _]. simpl. done.
Qed.

(** The document of a line: none for a blank line and for a line that
    [json.loads] does not decode. *)
Definition record_of (line : string) : option value :=
  if String.eqb (strip line) "" then None
  else match json_loads (strip line) with
       | Loaded data => Some data
       | _ => None
       end.


(** The message [_parse_message] returns for the record of a line. *)
Definition line_message (line : string) : option ConversationMessage.t :=
  data ← record_of line; (_parse_message data).1.

(** A line whose record [_parse_message] turns into a message. *)
Definition parses (line : string) : bool :=
  match line_message line with Some _ => true | None => false end.

(** A line that is not blank and that [json.loads] rejects. *)
Definition malformed (line : string) : Prop :=
  strip line <> "" /\ json_loads (strip line) = DecodeError.

(** The messages a call yields: those of the session, none without one. *)
Definition yielded (r : option ConversationSession.t * list event)
  : list ConversationMessage.t :=
  match r.1 with
  | Some s => ConversationSession.messages s
  | None => []
  end.



Lemma line_step_run file_path n line st :
  json_loads (strip line) <> OtherError ->
  exists st',
    line_step json_loads file_path n line st = inr st' /\
    r_messages st' = r_messages st ++ option_list (line_message line) /\
    (exists printed, r_out st' = r_out st ++ printed) /\
    (malformed line -> WarnJSONDecode (path_str file_path) n ∈ r_out st').
Proof.
  intros Hno. unfold line_step, line_message, record_of, malformed.
  destruct (String.eqb (strip line) "") eqn:Hblank.
  - exists st. split; [done|]. simpl. split_and!.
    + by rewrite app_nil_r.
    + exists []. by rewrite app_nil_r.
    + apply String.eqb_eq in Hblank. by intros [? _].
  - destruct (json_loads (strip line)) as [data| |] eqn:Hload; [| |done].
    + destruct (_parse_message data) as [[m|] printed] eqn:Hp; simpl.
      * eexists. split; [reflexivity|]. simpl. rewrite ?Hp. split_and!.
        -- done.
        -- by eexists.
        -- by intros [_ ?].
      * eexists. split; [reflexivity|]. simpl. rewrite ?Hp. split_and!.
        -- by rewrite app_nil_r.
        -- by eexists.
        -- by intros [_ ?].
    + eexists. split; [reflexivity|]. simpl. split_and!.
      * by rewrite app_nil_r.
      * by eexists.
      * intros _. apply elem_of_app. right. constructor.
Qed.

Lemma line_loop_run file_path ls : forall n st,
  Forall (fun line => json_loads (strip line) <> OtherError) ls ->
  exists st',
    line_loop json_loads file_path n ls st = inr st' /\
    r_messages st' = r_messages st ++ omap line_message ls /\
    (exists printed, r_out st' = r_out st ++ printed) /\
    (forall i line, ls !! i = Some line -> malformed line ->
       WarnJSONDecode (path_str file_path) (n + i) ∈ r_out st').
Proof.
  induction ls as [|l ls IH]; intros n st Hno; simpl.
  - exists st. repeat split.
    + by rewrite app_nil_r.
    + exists []. by rewrite app_nil_r.
    + intros i line Hi. by rewrite lookup_nil in Hi.
  - inversion Hno as [|? ? Hl Hls]; subst.
    destruct (line_step_run file_path n l st Hl)
      as (st1 & Hstep & Hm1 & [p1 Hp1] & Hw1).
    rewrite Hstep.
    destruct (IH (S n) st1 Hls) as (st' & Hloop & Hm & [p2 Hp2] & Hw).
    exists st'. split; [done|]. repeat split.
    + rewrite Hm, Hm1, <- app_assoc. f_equal.
      unfold option_list. by destruct (line_message l).
    + exists (p1 ++ p2). by rewrite Hp2, Hp1, app_assoc.
    + intros [|i] line Hi Hbad; simpl in Hi.
      * inversion Hi; subst. rewrite Hp2. apply elem_of_app. left.
        rewrite Nat.add_0_r. by apply Hw1.
      * replace (n + S i) with (S n + i) by lia. by apply (Hw i line).
Qed.


End Parser.

(** *** Sample documents *)

Definition dq : string := String (ascii_of_nat 34) EmptyString.
Definition newline : string := String (ascii_of_nat 10) EmptyString.
Definition quoted (s : string) : string := dq ++ s ++ dq.
Definition ended (s : string) : string := s ++ newline.
Definition field (k v : string) : string := quoted k ++ ":" ++ v.
Definition object (fields : list string) : string :=
  "{" ++ String.concat "," fields ++ "}".
Definition array (items : list string) : string :=
  "[" ++ String.concat "," items ++ "]".

(** The three records of the scenario of the specification. *)
Definition text_user : string :=
  object [field "type" (quoted "user"); field "uuid" (quoted "a");
          field "sessionId" (quoted "s1");
          field "message" (object [field "content" (quoted "hi")])].

Definition doc_user : value :=
  VDict [("type", VStr "user"); ("uuid", VStr "a"); ("sessionId", VStr "s1");
         ("message", VDict [("content", VStr "hi")])].

Definition text_assistant : string :=
  object [field "type" (quoted "assistant"); field "uuid" (quoted "b");
          field "sessionId" (quoted "s1");
          field "message"
            (object [field "content"
               (array [object [field "type" (quoted "text");
                               field "text" (quoted "ok")];
                       object [field "type" (quoted "tool_use");
                               field "name" (quoted "Read");
                               field "input" (object []);
                               field "id" (quoted "t1")]])])].

Definition doc_assistant : value :=
  VDict [("type", VStr "assistant"); ("uuid", VStr "b"); ("sessionId", VStr "s1");
         ("message", VDict [("content", VList
            [VDict [("type", VStr "text"); ("text", VStr "ok")];
             VDict [("type", VStr "tool_use"); ("name", VStr "Read");
                    ("input", VDict []); ("id", VStr "t1")]])])].

Definition text_meta : string := object [field "type" (quoted "meta")].
Definition doc_meta : value := VDict [("type", VStr "meta")].

(** A user record whose tool result is an error text, not an object. *)
Definition text_tool_error : string :=
  object [field "type" (quoted "user"); field "uuid" (quoted "c");
          field "toolUseResult" (quoted "Error: File does not exist.")].

Definition doc_tool_error : value :=
  VDict [("type", VStr "user"); ("uuid", VStr "c");
         ("toolUseResult", VStr "Error: File does not exist.")].

(** A user record with the captured output of a command. *)
Definition text_tool_output : string :=
  object [field "type" (quoted "user"); field "uuid" (quoted "d");
          field "toolUseResult"
            (object [field "stdout" (quoted "built");
                     field "stderr" (quoted " with warnings");
                     field "interrupted" "true"])].

Definition doc_tool_output : value :=
  VDict [("type", VStr "user"); ("uuid", VStr "d");
         ("toolUseResult", VDict [("stdout", VStr "built");
                                  ("stderr", VStr " with warnings");
                                  ("interrupted", VBool true)])].

(** [json.loads] on the sample texts; any other text is rejected here. *)
Definition sample_loads (text : string) : load_result :=
  match lookup text [(text_user, doc_user); (text_assistant, doc_assistant);
                     (text_meta, doc_meta); (text_tool_error, doc_tool_error);
                     (text_tool_output, doc_tool_output)] with
  | Some data => Loaded data
  | None => DecodeError
  end.

Definition sample_path : Path :=
  {| parts := ["/"; "home"; "dev"; "agrama"; "session.jsonl"];
     stem := "session";
     path_str := "/home/dev/agrama/session.jsonl" |}.

(** The scenario, with a truncated line and a blank line in the middle. *)
Definition sample_file : file_read :=
  {| lines := [ended text_user; ended ("{" ++ quoted "type"); ended "";
               ended text_assistant; ended text_meta];
     read_error := false |}.


(** The scenario of the specification. *)
Example scenario_session :
  (fun s => (ConversationSession.session_id s,
             ConversationSession.total_messages s,
             ConversationSession.user_messages s,
             ConversationSession.assistant_messages s,
             ConversationSession.tool_uses s,
             map ConversationMessage.content (ConversationSession.messages s)))
    <$> (parse_jsonl_file sample_loads sample_path sample_file).1
  = Some (VStr "s1", 2, 1, 1, 1, ["hi"; "ok"]).
Proof. vm_compute. reflexivity. Qed.

(** C5. Every session [parse_jsonl_file] builds has
    [user_messages + assistant_messages = total_messages],
    [total_messages] the length of its messages, and [tool_uses] the sum
    of the lengths of the messages' tool uses. *)
Theorem session_counts_consistent
    (json_loads : string -> load_result) (file_path : Path) (f : file_read)
    (s : ConversationSession.t) (out : list event) :
  parse_jsonl_file json_loads file_path f = (Some s, out) ->
  ConversationSession.user_messages s + ConversationSession.assistant_messages s
    = ConversationSession.total_messages s /\
  ConversationSession.total_messages s = length (ConversationSession.messages s) /\
  ConversationSession.tool_uses s =
    list_sum (map (fun m => length (ConversationMessage.tool_uses m))
                (ConversationSession.messages s)).
Proof.
  intros H. apply parse_jsonl_file_session in H.
  destruct H as (Hturn & Htotal & Huser & Hassistant & Htools).
  rewrite Huser, Hassistant, Htotal, Htools. split_and!; [|done|done].
  by apply count_types.
Qed.

Lemma session_counts_consistent_witness :
  match (parse_jsonl_file sample_loads sample_path sample_file).1 with
  | Some s =>
      ConversationSession.user_messages s
        + ConversationSession.assistant_messages s
        = ConversationSession.total_messages s /\
      ConversationSession.total_messages s
        = length (ConversationSession.messages s) /\
      ConversationSession.tool_uses s =
        list_sum (map (fun m => length (ConversationMessage.tool_uses m))
                    (ConversationSession.messages s))
  | None => False
  end.
Proof.
  destruct (parse_jsonl_file sample_loads sample_path sample_file)
    as [[s|] out] eqn:H; simpl.
  - exact (session_counts_consistent sample_loads sample_path sample_file s out H).
  - vm_compute in H. discriminate H.
Defined.




(** The truncated line of the sample file is reported as line 1. *)
Example sample_file_report :
  (parse_jsonl_file sample_loads sample_path sample_file).2
  = [WarnJSONDecode "/home/dev/agrama/session.jsonl" 1].
Proof. vm_compute. reflexivity. Qed.

Definition fields_of (v : value) : dict :=
  match v with VDict d => d | _ => [] end.

(** C8. For a record of type [user] or [assistant] that carries a
    [toolUseResult] object whose [stdout] and [stderr], where present, are
    texts, the message parsed ends its tool results with one entry: its
    content is the captured [stdout] followed by the captured [stderr]
    (each the empty text when absent), its [is_error] is true exactly when
    the [stderr] is not empty, and its [interrupted] is that of the
    record, [False] when absent. *)
Theorem tool_use_result_folded (d r : dict) (st : blocks) (out err : string) :
  is_turn_type (get d "type" VNone) = true ->
  message_body d = Some st ->
  lookup "toolUseResult" d = Some (VDict r) ->
  get r "stdout" (VStr "") = VStr out ->
  get r "stderr" (VStr "") = VStr err ->
  exists m is_error,
    _parse_message (VDict d) = (Some m, []) /\
    ConversationMessage.tool_results m =
      b_tool_results st ++
      [VDict [("content", VStr (out ++ err));
              ("is_error", VBool is_error);
              ("interrupted", get r "interrupted" (VBool false))]] /\
    (is_error = true <-> err <> "").
Proof.
  intros Hty Hbody Hres Hout Herr.
  unfold _parse_message, parse_message_try.
  unfold is_turn_type in Hty. rewrite Hty, Hbody. simpl.
  unfold side_channel, contains. rewrite Hres. simpl.
  rewrite Hout, Herr. simpl.
  eexists. exists (negb (String.eqb err "")).
  split; [reflexivity|]. simpl. split; [reflexivity|].
  rewrite negb_true_iff. apply String.eqb_neq.
Qed.

Lemma tool_use_result_folded_witness :
  exists m is_error,
    _parse_message doc_tool_output = (Some m, []) /\
    ConversationMessage.tool_results m =
      [] ++
      [VDict [("content", VStr ("built" ++ " with warnings"));
              ("is_error", VBool is_error);
              ("interrupted",
               get [("stdout", VStr "built"); ("stderr", VStr " with warnings");
                    ("interrupted", VBool true)] "interrupted" (VBool false))]] /\
    (is_error = true <-> " with warnings" <> "").
Proof.
  apply (tool_use_result_folded (fields_of doc_tool_output)
           [("stdout", VStr "built"); ("stderr", VStr " with warnings");
            ("interrupted", VBool true)]
           {| b_content := ""; b_tool_uses := []; b_tool_results := [] |}
           "built" " with warnings"); reflexivity.
Defined.

(** The entry of the sample record, and the record without captured
    error output. *)
Example tool_output_entry :
  ConversationMessage.tool_results <$> (_parse_message doc_tool_output).1
  = Some [VDict [("content", VStr "built with warnings");
                 ("is_error", VBool true);
                 ("interrupted", VBool true)]].
Proof. vm_compute. reflexivity. Qed.

Example tool_output_defaults :
  ConversationMessage.tool_results <$>
    (_parse_message
       (VDict [("type", VStr "assistant");
               ("toolUseResult", VDict [("stdout", VStr "done")])])).1
  = Some [VDict [("content", VStr "done");
                 ("is_error", VBool false);
                 ("interrupted", VBool false)]].
Proof. vm_compute. reflexivity. Qed.

End ParserProperties.

(** ** The extraction orchestrator *)
Module AnalyzerProperties.
Import Py LLMAnalyzer.

Lemma lstrip_length s : String.length (lstrip s) <= String.length s.
Proof.
  induction s as [|c s IH]; simpl; [lia|].
  destruct (is_space c); simpl; lia.
Qed.

Lemma rstrip_length s : String.length (rstrip s) <= String.length s.
Proof.
  induction s as [|c s IH]; simpl; [lia|].
  destruct (rstrip s) as [|a r]; simpl in *.
  - destruct (is_space c); simpl; lia.
  - lia.
Qed.

Lemma strip_length s : String.length (strip s) <= String.length s.
Proof.
  unfold strip. etransitivity; [apply rstrip_length | apply lstrip_length].
Qed.

(** Events that are not invocations of the external capability. *)
Definition quiet (tr : list event) : Prop :=
  Forall (fun e => is_api_call e = false) tr.

Lemma api_calls_app tr1 tr2 :
  api_calls (tr1 ++ tr2) = api_calls tr1 + api_calls tr2.
Proof. unfold api_calls. by rewrite filter_app, length_app. Qed.

Lemma api_calls_quiet tr : quiet tr -> api_calls tr = 0.
Proof.
  unfold api_calls. induction 1 as [|e tr He _ IH]; [done|].
  rewrite filter_cons_False; [done|]. by rewrite He.
Qed.

(** The cached payload of a result is read back as that result, for the
    session and message of the reader. *)
Lemma entity_of_kwargs_asdict e : entity_of_kwargs (asdict_entity e) = Some e.
Proof. by destruct e. Qed.

Lemma relationship_of_kwargs_asdict r :
  relationship_of_kwargs (asdict_relationship r) = Some r.
Proof. by destruct r. Qed.

Lemma mapM_inverse {A} (f : A -> value) (g : value -> option A) (l : list A) :
  (forall x, g (f x) = Some x) -> mapM g (map f l) = Some l.
Proof.
  intros Hgf. induction l as [|x l IH]; simpl; [done|].
  by rewrite Hgf, IH.
Qed.

Lemma result_from_cache_data session_id message_uuid r :
  result_from_cache session_id message_uuid (cache_data r) =
  Some {| AnalysisResult.session_id := session_id;
          AnalysisResult.message_uuid := message_uuid;
          AnalysisResult.entities := AnalysisResult.entities r;
          AnalysisResult.relationships := AnalysisResult.relationships r;
          AnalysisResult.concepts := AnalysisResult.concepts r;
          AnalysisResult.analysis_timestamp := AnalysisResult.analysis_timestamp r;
          AnalysisResult.model_version := AnalysisResult.model_version r |}.
Proof.
  unfold result_from_cache, cache_data. simpl.
  rewrite (mapM_inverse _ _ _ entity_of_kwargs_asdict). simpl.
  rewrite (mapM_inverse _ _ _ relationship_of_kwargs_asdict). simpl.
  done.
Qed.

Lemma save_to_cache_trace w key data :
  exists rest, trace (_save_to_cache w key data) = trace w ++ rest /\ quiet rest.
Proof.
  unfold _save_to_cache. case_decide; simpl.
  - exists [WarnCacheSave]. split; [done|]. by repeat constructor.
  - exists []. split; [by rewrite app_nil_r | constructor].
Qed.

Section Analyzer.

Variable sha256_hex16 : string -> string.
Variable json_loads : string -> load_result.
Variable instructions : string.
Variable messages_create : nat -> string -> api_result.
Variable time_time : nat -> string.

Abbreviation analyze_try :=
  (analyze_try json_loads instructions messages_create time_time).
Abbreviation analyze_miss :=
  (analyze_miss json_loads instructions messages_create time_time).
Abbreviation analyze_message :=
  (analyze_message sha256_hex16 json_loads instructions messages_create time_time).
Abbreviation analyze_each :=
  (analyze_each sha256_hex16 json_loads instructions messages_create time_time).

(** What the body of the [try] does to the analyzer and to the trace. *)
Lemma analyze_try_effects self w key content context sid uuid self' w' r :
  analyze_try self w key content context sid uuid = (self', w', r) ->
  rate_limit_delay self' = rate_limit_delay self /\
  cache_hits self' = cache_hits self /\
  analysis_errors self' = analysis_errors self /\
  exists rest,
    trace w' = trace w ++
      Sleep (rate_limit_delay self)
      :: ApiCall (create_analysis_prompt instructions content context) :: rest /\
    quiet rest.
Proof.
  unfold LLMAnalyzer.analyze_try. intros H.
  repeat case_match; simplify_eq; simpl; split_and!; try done;
    rewrite <- ?app_assoc; simpl;
    try (by (exists []; split; [done | constructor]));
    try (by (eexists [_]; split; [done | by repeat constructor])).
  match goal with
  | |- context [_save_to_cache ?w0 ?k ?d] =>
      destruct (save_to_cache_trace w0 k d) as (rest & Hrest & Hq)
  end.
  exists rest. split; [|done].
  simpl in Hrest. rewrite Hrest, <- !app_assoc. done.
Qed.

Lemma analyze_miss_effects self w key content context sid uuid self' w' r :
  analyze_miss self w key content context sid uuid = (self', w', r) ->
  rate_limit_delay self' = rate_limit_delay self /\
  cache_hits self' = cache_hits self /\
  exists rest,
    trace w' = trace w ++
      Sleep (rate_limit_delay self)
      :: ApiCall (create_analysis_prompt instructions content context) :: rest /\
    quiet rest.
Proof.
  unfold LLMAnalyzer.analyze_miss.
  destruct (analyze_try self w key content context sid uuid)
    as [[self1 w1] [r1|]] eqn:Htry;
    apply analyze_try_effects in Htry;
    destruct Htry as (Hd & Hh & _ & rest & Htr & Hq);
    intros [= <- <- <-]; simpl; split_and!; try done.
  - by exists rest.
  - exists (rest ++ [ErrorAnalyzing uuid]). split.
    + rewrite Htr, <- app_assoc. done.
    + apply Forall_app. split; [done | by repeat constructor].
Qed.

(** Every invocation of the external capability in [tr] comes right after
    a pause of [d] seconds. *)
Definition rate_limited (d : float) (tr : list event) : Prop :=
  forall i p, tr !! i = Some (ApiCall p) ->
    exists j, i = S j /\ tr !! j = Some (Sleep d).

Lemma rate_limited_quiet d tr : quiet tr -> rate_limited d tr.
Proof.
  intros Hq i p Hi. apply list_elem_of_lookup_2 in Hi.
  unfold quiet in Hq. rewrite Forall_forall in Hq.
  apply Hq in Hi. discriminate.
Qed.

Lemma rate_limited_app d tr1 tr2 :
  rate_limited d tr1 -> rate_limited d tr2 -> rate_limited d (tr1 ++ tr2).
Proof.
  intros H1 H2 i p Hi.
  destruct (decide (i < length tr1)) as [Hlt|Hge].
  - rewrite lookup_app_l in Hi by done.
    destruct (H1 i p Hi) as (j & -> & Hj). exists j. split; [done|].
    rewrite lookup_app_l by lia. done.
  - rewrite lookup_app_r in Hi by lia.
    destruct (H2 _ p Hi) as (j & Hij & Hj).
    exists (length tr1 + j). split; [lia|].
    rewrite lookup_app_r by lia.
    replace (length tr1 + j - length tr1) with j by lia. done.
Qed.

Lemma rate_limited_call d p rest :
  quiet rest -> rate_limited d (Sleep d :: ApiCall p :: rest).
Proof.
  intros Hq [|[|i]] q Hi; simpl in Hi.
  - discriminate.
  - exists 0. done.
  - apply (rate_limited_quiet d) in Hq.
    destruct (Hq i q Hi) as (j & -> & Hj). exists (S (S j)). done.
Qed.

(** One call extends the trace by rate-limited events, with at most one
    invocation, and leaves the configured delay as it is. *)
Lemma analyze_message_effects self w content context sid uuid self' w' r :
  analyze_message self w content context sid uuid = (self', w', r) ->
  rate_limit_delay self' = rate_limit_delay self /\
  exists new,
    trace w' = trace w ++ new /\ rate_limited (rate_limit_delay self) new.
Proof.
  unfold LLMAnalyzer.analyze_message.
  destruct (_ || _).
  - intros [= <- <- <-]. split; [done|]. exists []. split.
    + by rewrite app_nil_r.
    + apply rate_limited_quiet. constructor.
  - destruct (_load_from_cache self w _) as [[self0 w0] cached] eqn:Hload.
    assert (Hself0 : rate_limit_delay self0 = rate_limit_delay self /\
                     trace w0 = trace w ++
                       [CacheLookup (_create_cache_key sha256_hex16 (content ++ context))]).
    { unfold _load_from_cache in Hload.
      repeat case_match; simplify_eq; done. }
    destruct Hself0 as [Hd0 Htr0].
    destruct (cache_hit cached) as [payload|].
    + intros [= <- <- <-]. split; [done|]. eexists. split; [exact Htr0|].
      apply rate_limited_quiet. by repeat constructor.
    + intros Hmiss. apply analyze_miss_effects in Hmiss.
      destruct Hmiss as (Hd & _ & rest & Htr & Hq).
      split; [congruence|]. eexists. split.
      * rewrite Htr, Htr0, <- app_assoc. reflexivity.
      * apply rate_limited_app.
        -- apply rate_limited_quiet. by repeat constructor.
        -- rewrite Hd0. by apply rate_limited_call.
Qed.

Lemma analyze_each_effects calls : forall self w,
  exists new,
    trace (analyze_each self w calls).1.2 = trace w ++ new /\
    rate_limited (rate_limit_delay self) new.
Proof.
  induction calls as [|c calls IH]; intros self w; simpl.
  - exists []. split; [by rewrite app_nil_r|].
    apply rate_limited_quiet. constructor.
  - destruct (analyze_message self w (c_content c) (c_context c)
                (c_session_id c) (c_message_uuid c))
      as [[self1 w1] r] eqn:Hcall.
    apply analyze_message_effects in Hcall.
    destruct Hcall as (Hd & new1 & Htr1 & Hrl1).
    destruct r as [r|]; simpl.
    + destruct (IH self1 w1) as (new2 & Htr2 & Hrl2).
      destruct (analyze_each self1 w1 calls) as [[self2 w2] rs]. simpl in *.
      exists (new1 ++ new2). split.
      * rewrite Htr2, Htr1, <- app_assoc. done.
      * apply rate_limited_app; [done|]. by rewrite <- Hd.
    + by exists new1.
Qed.

(** C6. For a message content that is empty or shorter than 20
    characters, [analyze_message] returns at once the empty result with
    the given session and message identifiers: the analyzer and the world
    are as before the call, so no cache file was looked up and the
    external capability was not invoked. *)
Theorem short_message_skipped self w content context sid uuid :
  content = "" \/ String.length content < 20 ->
  analyze_message self w content context sid uuid
  = (self, w, Some (empty_result sid uuid)).
Proof.
  intros Hshort. unfold LLMAnalyzer.analyze_message.
  assert (Hcond : String.eqb content ""
                  || Nat.ltb (String.length (strip content)) 20 = true).
  { destruct Hshort as [->|Hlen]; [done|].
    apply orb_true_iff. right. apply Nat.ltb_lt.
    pose proof (strip_length content). lia. }
  by rewrite Hcond.
Qed.

(** C9. Over any sequence of calls of [analyze_message], every invocation
    of the external capability comes right after a pause of the configured
    [rate_limit_delay], so between two successive invocations such a pause
    takes place. *)
Theorem rate_limit_before_every_call self w calls :
  exists new,
    trace (analyze_each self w calls).1.2 = trace w ++ new /\
    (forall i p, new !! i = Some (ApiCall p) ->
       exists j, i = S j /\ new !! j = Some (Sleep (rate_limit_delay self))) /\
    (forall i k p q, i < k ->
       new !! i = Some (ApiCall p) -> new !! k = Some (ApiCall q) ->
       exists j, i < j < k /\ new !! j = Some (Sleep (rate_limit_delay self))).
Proof.
  destruct (analyze_each_effects calls self w) as (new & Htr & Hrl).
  exists new. split; [done|]. split; [exact Hrl|].
  intros i k p q Hik Hi Hk.
  destruct (Hrl k q Hk) as (j & -> & Hj). exists j. split; [|done].
  destruct (decide (i = j)) as [->|]; [congruence | lia].
Qed.

Lemma long_content content :
  20 <= String.length (strip content) ->
  String.eqb content "" || Nat.ltb (String.length (strip content)) 20 = false.
Proof.
  intros Hlen. apply orb_false_iff. split.
  - destruct content; [simpl in Hlen; lia | done].
  - apply Nat.ltb_ge. lia.
Qed.

(** C10. There is a cache state, the file of the requested key holding no
    valid JSON, in which [_load_from_cache] returns a miss without raising
    and [analyze_message] goes on to invoke the external capability, yet
    [cache_hits] is incremented: the counter is not the number of requests
    served from the cache. *)
Theorem corrupt_cache_file_counts_as_hit self content context sid uuid :
  20 <= String.length (strip content) ->
  exists w : world,
    files w !! sha256_hex16 (content ++ context) = Some Corrupt /\
    (_load_from_cache self w (sha256_hex16 (content ++ context))).2 = None /\
    api_calls (trace (analyze_message self w content context sid uuid).1.2)
      = S (api_calls (trace w)) /\
    cache_hits (analyze_message self w content context sid uuid).1.1
      = S (cache_hits self).
Proof.
  intros Hlen.
  exists {| files := {[sha256_hex16 (content ++ context) := Corrupt]};
            locked := ∅; trace := [] |}.
  split; [apply lookup_singleton_eq|].
  unfold LLMAnalyzer.analyze_message, _create_cache_key, _load_from_cache.
  rewrite (long_content content Hlen). simpl.
  rewrite lookup_singleton_eq. simpl. split; [done|].
  destruct (analyze_miss _ _ _ _ _ _ _) as [[self' w'] r] eqn:Hmiss.
  apply analyze_miss_effects in Hmiss. simpl in *.
  destruct Hmiss as (_ & Hhits & rest & Htr & Hq).
  split; [|done].
  rewrite Htr.
  change (CacheLookup ?k :: Sleep ?d :: ApiCall ?p :: rest)
    with ([CacheLookup k; Sleep d; ApiCall p] ++ rest).
  rewrite api_calls_app, (api_calls_quiet rest Hq). done.
Qed.

(** An answer of the external capability in which no JSON is found, or
    whose JSON text does not decode, is reported and gives the empty
    result; the analyzer counts the invocation and no analysis error. *)
Lemma unparseable_response_effects self w key content context sid uuid blocks text :
  messages_create (api_calls (trace w))
    (create_analysis_prompt instructions content context) = ApiResponse blocks ->
  response_text blocks = Some text ->
  extract_json text = None \/
    (exists json_str, extract_json text = Some json_str /\
                      json_loads json_str = DecodeError) ->
  exists warning,
    analyze_miss self w key content context sid uuid =
      (count_api_call self,
       emit (emit (emit w (Sleep (rate_limit_delay self)))
               (ApiCall (create_analysis_prompt instructions content context)))
         warning,
       Some (empty_result sid uuid)) /\
    (warning = WarnNoJSON uuid \/ warning = WarnJSONParse uuid).
Proof.
  intros Hcreate Htext Hbad.
  unfold LLMAnalyzer.analyze_miss, LLMAnalyzer.analyze_try. simpl.
  rewrite api_calls_app. change (api_calls [Sleep _]) with 0.
  rewrite Nat.add_0_r, Hcreate, Htext.
  destruct Hbad as [Hnone|(json_str & Hsome & Hdecode)].
  - rewrite Hnone. eexists. split; [reflexivity | by left].
  - rewrite Hsome, Hdecode. eexists. split; [reflexivity | by right].
Qed.

(** The entities, relationships and concepts the external capability
    gives on its [n]-th invocation, when it answers with a JSON document
    that decodes and normalizes. *)
Definition extracted (n : nat) (content context sid uuid : string)
  : option (list Entity.t * list Relationship.t * value) :=
  match messages_create n (create_analysis_prompt instructions content context) with
  | ApiRaises => None
  | ApiResponse blocks =>
      text ← response_text blocks;
      json_str ← extract_json text;
      match json_loads json_str with
      | Loaded parsed => normalize sid uuid context parsed
      | _ => None
      end
  end.

Definition fresh_result (sid uuid : string) (es : list Entity.t)
    (rs : list Relationship.t) (cs stamp version : value) : AnalysisResult.t :=
  {| AnalysisResult.session_id := sid;
     AnalysisResult.message_uuid := uuid;
     AnalysisResult.entities := es;
     AnalysisResult.relationships := rs;
     AnalysisResult.concepts := cs;
     AnalysisResult.analysis_timestamp := stamp;
     AnalysisResult.model_version := version |}.

Lemma analyze_miss_success self w key content context sid uuid es rs cs :
  extracted (api_calls (trace w)) content context sid uuid = Some (es, rs, cs) ->
  key ∉ locked w ->
  exists stamp,
    analyze_miss self w key content context sid uuid =
      (count_api_call self,
       {| files :=
            <[key := ValidJSON
                (cache_data (fresh_result sid uuid es rs cs (VStr stamp)
                               (VStr (model self))))]> (files w);
          locked := locked w;
          trace := trace w ++
            [Sleep (rate_limit_delay self);
             ApiCall (create_analysis_prompt instructions content context)] |},
       Some (fresh_result sid uuid es rs cs (VStr stamp) (VStr (model self)))).
Proof.
  intros Hx Hw. unfold extracted in Hx.
  unfold LLMAnalyzer.analyze_miss, LLMAnalyzer.analyze_try. simpl.
  rewrite api_calls_app. change (api_calls [Sleep _]) with 0.
  rewrite Nat.add_0_r.
  destruct (messages_create _ _) as [|blocks]; [discriminate|].
  destruct (response_text blocks) as [text|]; simpl in Hx; [|discriminate].
  destruct (extract_json text) as [json_str|]; simpl in Hx; [|discriminate].
  destruct (json_loads json_str) as [parsed| |]; try discriminate.
  rewrite Hx. unfold _save_to_cache. simpl.
  destruct (decide (key ∈ locked w)); [contradiction|].
  eexists. unfold fresh_result. simpl. rewrite <- app_assoc. reflexivity.
Qed.

(** The property as the specification words it: two calls with the same
    content and context make one invocation of the external capability
    and return the same result. *)
Definition cache_idempotent (self : t) (w : world)
    (content context sid uuid : string) : Prop :=
  let first := analyze_message self w content context sid uuid in
  let second := analyze_message first.1.1 first.1.2 content context sid uuid in
  api_calls (trace second.1.2) = S (api_calls (trace w)) /\
  second.2 = first.2.

(** C1, amended. For a content of at least 20 characters once stripped,
    when the first call misses the cache, the external capability answers
    with a JSON document that decodes and normalizes, and the cache file
    can be written: the two calls with the same content and context make
    exactly one invocation of the external capability, none of it on the
    second call, and the second call returns the entities, relationships,
    concepts, time stamp and model version of the first, rebuilt from the
    cached payload, under its own session and message identifiers. *)
Theorem cache_idempotence self w content context sid1 uuid1 sid2 uuid2 es rs cs :
  20 <= String.length (strip content) ->
  cache_hit (_load_from_cache self w (sha256_hex16 (content ++ context))).2 = None ->
  sha256_hex16 (content ++ context) ∉ locked w ->
  extracted (api_calls (trace w)) content context sid1 uuid1 = Some (es, rs, cs) ->
  exists self1 w1 r1 self2 w2 r2,
    analyze_message self w content context sid1 uuid1 = (self1, w1, Some r1) /\
    analyze_message self1 w1 content context sid2 uuid2 = (self2, w2, Some r2) /\
    api_calls (trace w1) = S (api_calls (trace w)) /\
    api_calls (trace w2) = api_calls (trace w1) /\
    AnalysisResult.entities r1 = es /\
    AnalysisResult.relationships r1 = rs /\
    AnalysisResult.concepts r1 = cs /\
    AnalysisResult.entities r2 = AnalysisResult.entities r1 /\
    AnalysisResult.relationships r2 = AnalysisResult.relationships r1 /\
    AnalysisResult.concepts r2 = AnalysisResult.concepts r1 /\
    AnalysisResult.analysis_timestamp r2 = AnalysisResult.analysis_timestamp r1 /\
    AnalysisResult.model_version r2 = AnalysisResult.model_version r1 /\
    AnalysisResult.session_id r2 = sid2 /\
    AnalysisResult.message_uuid r2 = uuid2 /\
    (sid2 = sid1 -> uuid2 = uuid1 -> r2 = r1).
Proof.
  intros Hlen Hmiss Hw Hx.
  set (key := sha256_hex16 (content ++ context)) in *.
  destruct (_load_from_cache self w key) as [[self0 w0] cached] eqn:Hload.
  simpl in Hmiss.
  assert (Hw0 : w0 = emit w (CacheLookup key)).
  { unfold _load_from_cache in Hload. repeat case_match; by simplify_eq. }
  destruct (analyze_miss_success self0 w0 key content context sid1 uuid1 es rs cs)
    as [stamp Hrun].
  { rewrite Hw0. simpl. rewrite api_calls_app.
    change (api_calls [CacheLookup key]) with 0. by rewrite Nat.add_0_r. }
  { by rewrite Hw0. }
  do 3 eexists.
  exists (count_cache_hit (count_api_call self0)).
  exists (emit
    {| files := <[key := ValidJSON
                    (cache_data (fresh_result sid1 uuid1 es rs cs (VStr stamp)
                                   (VStr (model self0))))]> (files w0);
       locked := locked w0;
       trace := trace w0 ++
         [Sleep (rate_limit_delay self0);
          ApiCall (create_analysis_prompt instructions content context)] |}
    (CacheLookup key)).
  eexists.
  split.
  { unfold LLMAnalyzer.analyze_message, _create_cache_key. fold key.
    rewrite (long_content content Hlen), Hload, Hmiss. exact Hrun. }
  split.
  { unfold LLMAnalyzer.analyze_message, _create_cache_key. fold key.
    rewrite (long_content content Hlen).
    unfold _load_from_cache. simpl. rewrite lookup_insert_eq. simpl.
    rewrite result_from_cache_data. reflexivity. }
  simpl. rewrite Hw0. simpl. rewrite !api_calls_app.
  change (api_calls [CacheLookup key]) with 0.
  change (api_calls [Sleep _; ApiCall _]) with 1.
  split_and!; try done; try lia.
  intros -> ->. done.
Qed.

End Analyzer.

(** *** Sample runs *)

(** A stand-in for the hash in the sample runs: the first 16 characters. *)
Definition sample_hash (content : string) : string :=
  String.substring 0 16 content.

Definition sample_time (n : nat) : string := "1700000000.5".

Definition sample_content : string :=
  "Let me implement the FRE algorithm in src/fre_true.zig.".

Definition sample_context : string := "Project: agrama, Session: s1".

Definition fresh_world : world := {| files := ∅; locked := ∅; trace := [] |}.

(** An answer with a fenced JSON document. *)
Definition answer_json : string :=
  ParserProperties.object
    [ParserProperties.field "entities"
       (ParserProperties.array
          [ParserProperties.object
             [ParserProperties.field "name" (ParserProperties.quoted "src/fre_true.zig");
              ParserProperties.field "type" (ParserProperties.quoted "FILE");
              ParserProperties.field "confidence" "0.5"]]);
     ParserProperties.field "relationships"
       (ParserProperties.array
          [ParserProperties.object
             [ParserProperties.field "from" (ParserProperties.quoted "FRE algorithm");
              ParserProperties.field "to" (ParserProperties.quoted "src/fre_true.zig");
              ParserProperties.field "type" (ParserProperties.quoted "IMPLEMENTS")]]);
     ParserProperties.field "concepts"
       (ParserProperties.array [ParserProperties.quoted "FRE"])].

Definition answer_text : string :=
  "Here is the analysis." ++ ParserProperties.newline ++
  fence ++ "json" ++ ParserProperties.newline ++
  answer_json ++ ParserProperties.newline ++ fence.

Definition answer_doc : value :=
  VDict [("entities",
          VList [VDict [("name", VStr "src/fre_true.zig"); ("type", VStr "FILE");
                        ("confidence", VFloat 0.5%float)]]);
         ("relationships",
          VList [VDict [("from", VStr "FRE algorithm");
                        ("to", VStr "src/fre_true.zig");
                        ("type", VStr "IMPLEMENTS")]]);
         ("concepts", VList [VStr "FRE"])].

(** [json.loads] on the sample answer; any other text is rejected here. *)
Definition answer_loads (text : string) : load_result :=
  if String.eqb text answer_json then Loaded answer_doc else DecodeError.

Definition helpful_create (n : nat) (prompt : string) : api_result :=
  ApiResponse [TextBlock answer_text].

(** An answer without any JSON, one with braces around no JSON, and a
    failing invocation. *)
Definition silent_create (n : nat) (prompt : string) : api_result :=
  ApiResponse [TextBlock "I could not find any entities."].

Definition garbled_create (n : nat) (prompt : string) : api_result :=
  ApiResponse [TextBlock "Entities: {none at all}"].

Definition failing_create (n : nat) (prompt : string) : api_result := ApiRaises.

Definition sample_entities : list Entity.t :=
  [{| Entity.id := VStr "s1_m1_0";
      Entity.name := VStr "src/fre_true.zig";
      Entity.entity_type := VStr "FILE";
      Entity.confidence := VFloat 0.5%float;
      Entity.content := VStr "";
      Entity.context := VStr sample_context;
      Entity.attributes := VDict [] |}].

Definition sample_relationships : list Relationship.t :=
  [{| Relationship.from_entity := VStr "FRE algorithm";
      Relationship.to_entity := VStr "src/fre_true.zig";
      Relationship.relationship_type := VStr "IMPLEMENTS";
      Relationship.confidence := VFloat 0%float;
      Relationship.evidence := VStr "";
      Relationship.attributes := VDict [] |}].

Example extract_json_fenced : extract_json answer_text = Some answer_json.
Proof. vm_compute. reflexivity. Qed.

Example extract_json_braces :
  extract_json "Entities: {none at all} and {more}" = Some "{none at all} and {more}".
Proof. vm_compute. reflexivity. Qed.

Lemma short_message_skipped_witness :
  analyze_message sample_hash answer_loads "" helpful_create sample_time
    init fresh_world "hi there" sample_context "s1" "m1"
  = (init, fresh_world, Some (empty_result "s1" "m1")).
Proof.
  apply (short_message_skipped sample_hash answer_loads "" helpful_create
           sample_time init fresh_world "hi there" sample_context "s1" "m1").
  right. simpl. lia.
Defined.

Lemma corrupt_cache_file_counts_as_hit_witness :
  exists w : world,
    files w !! sample_hash (sample_content ++ sample_context) = Some Corrupt /\
    (_load_from_cache init w
       (sample_hash (sample_content ++ sample_context))).2 = None /\
    api_calls (trace (analyze_message sample_hash answer_loads "" helpful_create
                        sample_time init w sample_content sample_context
                        "s1" "m1").1.2)
      = S (api_calls (trace w)) /\
    cache_hits (analyze_message sample_hash answer_loads "" helpful_create
                  sample_time init w sample_content sample_context
                  "s1" "m1").1.1
      = S (cache_hits init).
Proof.
  apply (corrupt_cache_file_counts_as_hit sample_hash answer_loads ""
           helpful_create sample_time init sample_content sample_context
           "s1" "m1").
  vm_compute. lia.
Defined.

(** C7: the answer without JSON gives the empty result and a warning; the
    invocation is counted and [analysis_errors] stays at zero. *)
Example response_without_json_not_counted :
  analyze_message sample_hash answer_loads "" silent_create sample_time
    init fresh_world sample_content sample_context "s1" "m1"
  = ({| model := "claude-sonnet-4-20250514"; rate_limit_delay := 1.0%float;
        total_api_calls := 1; cache_hits := 0; analysis_errors := 0 |},
     {| files := ∅; locked := ∅;
        trace := [CacheLookup "Let me implement";
                  Sleep 1.0%float;
                  ApiCall (create_analysis_prompt "" sample_content sample_context);
                  WarnNoJSON "m1"] |},
     Some (empty_result "s1" "m1")).
Proof. vm_compute. reflexivity. Qed.

(** The same for braces around a text that does not decode. *)
Example undecodable_response_not_counted :
  (fun r => (analysis_errors r.1.1, total_api_calls r.1.1, last (trace r.1.2), r.2))
    (analyze_message sample_hash answer_loads "" garbled_create sample_time
       init fresh_world sample_content sample_context "s1" "m1")
  = (0, 1, Some (WarnJSONParse "m1"), Some (empty_result "s1" "m1")).
Proof. vm_compute. reflexivity. Qed.

(** The handler of the [try] does count: a failing invocation gives the
    empty result with [analysis_errors] at one. *)
Example failing_call_counted :
  (fun r => (analysis_errors r.1.1, total_api_calls r.1.1, last (trace r.1.2), r.2))
    (analyze_message sample_hash answer_loads "" failing_create sample_time
       init fresh_world sample_content sample_context "s1" "m1")
  = (1, 0, Some (ErrorAnalyzing "m1"), Some (empty_result "s1" "m1")).
Proof. vm_compute. reflexivity. Qed.

(** C1, as stated, fails: when the answer holds no JSON nothing is cached,
    and the second call invokes the external capability again. *)
Lemma cache_idempotent_counterexample :
  ~ cache_idempotent sample_hash answer_loads "" silent_create sample_time
      init fresh_world sample_content sample_context "s1" "m1".
Proof.
  unfold cache_idempotent. intros [Hcalls _].
  vm_compute in Hcalls. discriminate Hcalls.
Qed.

Lemma cache_idempotence_witness :
  exists self1 w1 r1 self2 w2 r2,
    analyze_message sample_hash answer_loads "" helpful_create sample_time
      init fresh_world sample_content sample_context "s1" "m1"
      = (self1, w1, Some r1) /\
    analyze_message sample_hash answer_loads "" helpful_create sample_time
      self1 w1 sample_content sample_context "s2" "m2"
      = (self2, w2, Some r2) /\
    api_calls (trace w1) = S (api_calls (trace fresh_world)) /\
    api_calls (trace w2) = api_calls (trace w1) /\
    AnalysisResult.entities r1 = sample_entities /\
    AnalysisResult.relationships r1 = sample_relationships /\
    AnalysisResult.concepts r1 = VList [VStr "FRE"] /\
    AnalysisResult.entities r2 = AnalysisResult.entities r1 /\
    AnalysisResult.relationships r2 = AnalysisResult.relationships r1 /\
    AnalysisResult.concepts r2 = AnalysisResult.concepts r1 /\
    AnalysisResult.analysis_timestamp r2 = AnalysisResult.analysis_timestamp r1 /\
    AnalysisResult.model_version r2 = AnalysisResult.model_version r1 /\
    AnalysisResult.session_id r2 = "s2" /\
    AnalysisResult.message_uuid r2 = "m2" /\
    ("s2" = "s1" -> "m2" = "m1" -> r2 = r1).
Proof.
  apply (cache_idempotence sample_hash answer_loads "" helpful_create
           sample_time init fresh_world sample_content sample_context
           "s1" "m1" "s2" "m2" sample_entities sample_relationships
           (VList [VStr "FRE"])).
  - vm_compute. lia.
  - reflexivity.
  - apply not_elem_of_empty.
  - vm_compute. reflexivity.
Defined.

(** Two different messages analyzed in turn: each invocation right after
    a pause of one second. *)
Example two_misses_trace :
  trace (analyze_each sample_hash answer_loads "" helpful_create sample_time
           init fresh_world
           [{| c_content := sample_content; c_context := sample_context;
               c_session_id := "s1"; c_message_uuid := "m1" |};
            {| c_content := "Now add the tests for the BMSSP function.";
               c_context := sample_context;
               c_session_id := "s1"; c_message_uuid := "m2" |}]).1.2
  = [CacheLookup "Let me implement";
     Sleep 1.0%float;
     ApiCall (create_analysis_prompt "" sample_content sample_context);
     CacheLookup "Now add the test";
     Sleep 1.0%float;
     ApiCall (create_analysis_prompt ""
                "Now add the tests for the BMSSP function." sample_context)].
Proof. vm_compute. reflexivity. Qed.

End AnalyzerProperties.

(** ** The graph merger: names, growth, failure *)
Module MergerInvariants.
Import Py LLMEnhancedProcessor MergerProperties.

Lemma kept_fresh es : forall seen e,
  e ∈ kept seen es -> CodeEntity.name e ∉ seen.
Proof.
  induction es as [|x es IH]; intros seen e; simpl; [by intros ?%elem_of_nil|].
  destruct (decide (CodeEntity.name x ∈ seen)) as [Hin|Hin].
  - apply IH.
  - intros [->|He]%elem_of_cons; [done|].
    apply IH in He. set_solver.
Qed.

Lemma kept_NoDup es : forall seen,
  NoDup (map CodeEntity.name (kept seen es)).
Proof.
  induction es as [|x es IH]; intros seen; simpl; [constructor|].
  destruct (decide (CodeEntity.name x ∈ seen)) as [Hin|Hin]; [apply IH|].
  simpl. constructor; [|apply IH].
  intros Hx. apply list_elem_of_fmap in Hx. destruct Hx as (e & Hname & He).
  apply kept_fresh in He. set_solver.
Qed.

Lemma kept_names es : forall seen,
  names_of (kept seen es) ∪ seen = names_of es ∪ seen.
Proof.
  induction es as [|x es IH]; intros seen; simpl; [done|].
  destruct (decide (CodeEntity.name x ∈ seen)) as [Hin|Hin].
  - rewrite IH. unfold names_of. simpl.
    generalize (list_to_set (map CodeEntity.name es) : gset string).
    intros B. set_solver.
  - unfold names_of in *. simpl.
    specialize (IH ({[CodeEntity.name x]} ∪ seen)). revert IH.
    generalize (list_to_set (map CodeEntity.name es) : gset string).
    generalize (list_to_set
      (map CodeEntity.name (kept ({[CodeEntity.name x]} ∪ seen) es)) : gset string).
    intros A B IH. apply set_eq. intros y.
    rewrite set_eq in IH. specialize (IH y).
    rewrite !elem_of_union in *. tauto.
Qed.

Lemma kept_seen es : forall seen,
  names_of es ⊆ seen -> kept seen es = [].
Proof.
  induction es as [|x es IH]; intros seen Hsub; simpl; [done|].
  unfold names_of in Hsub. simpl in Hsub.
  destruct (decide (CodeEntity.name x ∈ seen)) as [Hin|Hin]; [|set_solver].
  apply IH. unfold names_of. set_solver.
Qed.

Lemma merge_loop_labels graphs : forall st,
  is_Some (merge_loop st graphs) <-> Forall label_ok graphs.
Proof.
  induction graphs as [|g graphs IH]; intros st; simpl.
  - split; [constructor | by eexists].
  - unfold merge_step. destruct (add_entities _ _ _) as [names ents].
    destruct (hashable _) eqn:Hh; simpl.
    + rewrite IH. split.
      * intros H. by constructor.
      * by inversion 1.
    + split; [by intros [? ?] | inversion 1; unfold label_ok in *; congruence].
Qed.

Section Merge.

Variable now : string.
Variable list_of_set : list value -> list value.

Abbreviation merge_graphs := (merge_graphs now list_of_set).

(** The file [merge_graphs] writes for the lists it returns. *)
Definition written (merged : GraphData.t) : value :=
  VDict [("entities", VList (map asdict_entity (GraphData.entities merged)));
         ("relationships",
          VList (map asdict_relationship (GraphData.relationships merged)));
         ("metadata", VDict (GraphData.metadata merged))].

(** Everything a successful call determines. *)
Lemma merge_graphs_inv w graphs output_path w' merged :
  merge_graphs w graphs output_path = (w', Some merged) ->
  Forall label_ok graphs /\
  (output_path ∉ locked w) /\
  GraphData.entities merged = kept ∅ (concat (map GraphData.entities graphs)) /\
  GraphData.relationships merged = concat (map GraphData.relationships graphs) /\
  files w' = <[output_path := written merged]> (files w) /\
  locked w' = locked w.
Proof.
  unfold LLMEnhancedProcessor.merge_graphs.
  destruct (merge_loop _ graphs) as [st|] eqn:Hloop; [|discriminate].
  assert (Hok : Forall label_ok graphs).
  { apply (merge_loop_labels graphs
             {| entity_names := ∅; all_entities := [];
                all_relationships := []; projects := [] |}).
    by rewrite Hloop. }
  apply merge_loop_spec in Hloop; [|done]. simpl in Hloop.
  destruct Hloop as (_ & He & Hr).
  destruct (decide (output_path ∈ locked w)); [discriminate|].
  intros [= <- <-]. simpl. rewrite <- He, <- Hr. done.
Qed.

(** The merged entities carry pairwise distinct names, and exactly the
    names that occur in the input graphs. *)
Theorem merged_names_distinct_and_complete w graphs output_path w' merged :
  merge_graphs w graphs output_path = (w', Some merged) ->
  NoDup (map CodeEntity.name (GraphData.entities merged)) /\
  (forall n,
      n ∈ map CodeEntity.name (GraphData.entities merged) <->
      n ∈ map CodeEntity.name (concat (map GraphData.entities graphs))).
Proof.
  intros H. apply merge_graphs_inv in H.
  destruct H as (_ & _ & He & _). rewrite He. split; [apply kept_NoDup|].
  intros n.
  pose proof (kept_names (concat (map GraphData.entities graphs)) ∅) as Hn.
  unfold names_of in Hn.
  rewrite <- !(elem_of_list_to_set (C := gset string)). set_solver.
Qed.

(** Merging more graphs only appends: the entities and relationships merged
    from a prefix of the inputs are a prefix of those merged from all. *)
Theorem merge_graphs_grows w graphs more output_path w' merged :
  merge_graphs w (graphs ++ more) output_path = (w', Some merged) ->
  exists w1 merged1,
    merge_graphs w graphs output_path = (w1, Some merged1) /\
    GraphData.entities merged1 `prefix_of` GraphData.entities merged /\
    GraphData.relationships merged1 `prefix_of` GraphData.relationships merged.
Proof.
  intros H. apply merge_graphs_inv in H.
  destruct H as (Hok & Hw & He & Hr & _).
  apply Forall_app in Hok. destruct Hok as [Hok _].
  destruct (merge_graphs_returns now list_of_set w graphs output_path Hok Hw)
    as (w1 & merged1 & Hrun & He1 & Hr1).
  exists w1, merged1. split; [done|].
  rewrite He, Hr, He1, Hr1, !map_app, !concat_app, kept_app.
  split; by eexists.
Qed.

(** Merging every graph a second time adds no entity and repeats every
    relationship. *)
Theorem merge_graphs_twice w graphs output_path w' merged :
  merge_graphs w (graphs ++ graphs) output_path = (w', Some merged) ->
  exists w1 merged1,
    merge_graphs w graphs output_path = (w1, Some merged1) /\
    GraphData.entities merged = GraphData.entities merged1 /\
    GraphData.relationships merged =
      GraphData.relationships merged1 ++ GraphData.relationships merged1.
Proof.
  intros H. apply merge_graphs_inv in H.
  destruct H as (Hok & Hw & He & Hr & _).
  apply Forall_app in Hok. destruct Hok as [Hok _].
  destruct (merge_graphs_returns now list_of_set w graphs output_path Hok Hw)
    as (w1 & merged1 & Hrun & He1 & Hr1).
  exists w1, merged1. split; [done|].
  rewrite He, Hr, He1, Hr1, !map_app, !concat_app, kept_app.
  split; [|done].
  rewrite (kept_seen _ (names_of (kept ∅ (concat (map GraphData.entities graphs))) ∪ ∅)).
  - by rewrite app_nil_r.
  - rewrite kept_names. set_solver.
Qed.

(** The metadata of the merged graph counts what the graph holds, and the
    output file holds the graph; no other file is touched. *)
Theorem merge_graphs_metadata_and_file w graphs output_path w' merged :
  merge_graphs w graphs output_path = (w', Some merged) ->
  lookup "total_sessions" (GraphData.metadata merged)
    = Some (VInt (Z.of_nat (length graphs))) /\
  lookup "total_entities" (GraphData.metadata merged)
    = Some (VInt (Z.of_nat (length (GraphData.entities merged)))) /\
  lookup "total_relationships" (GraphData.metadata merged)
    = Some (VInt (Z.of_nat (length (GraphData.relationships merged)))) /\
  files w' !! output_path = Some (written merged) /\
  (forall path, path <> output_path -> files w' !! path = files w !! path).
Proof.
  intros H. pose proof (merge_graphs_inv _ _ _ _ _ H) as (_ & _ & _ & _ & Hf & _).
  rewrite Hf, lookup_insert_eq.
  split_and!; try done.
  - revert H. unfold LLMEnhancedProcessor.merge_graphs.
    destruct (merge_loop _ graphs); [|discriminate].
    destruct (decide _); [discriminate|]. by intros [= <- <-].
  - revert H. unfold LLMEnhancedProcessor.merge_graphs.
    destruct (merge_loop _ graphs); [|discriminate].
    destruct (decide _); [discriminate|]. by intros [= <- <-].
  - revert H. unfold LLMEnhancedProcessor.merge_graphs.
    destruct (merge_loop _ graphs); [|discriminate].
    destruct (decide _); [discriminate|]. by intros [= <- <-].
  - intros path Hne. by rewrite lookup_insert_ne.
Qed.

Lemma merge_graphs_failure_world w graphs output_path w' :
  merge_graphs w graphs output_path = (w', None) -> w' = w.
Proof.
  unfold LLMEnhancedProcessor.merge_graphs.
  destruct (merge_loop _ graphs); [|by intros [= <-]].
  destruct (decide _); [by intros [= <-] | discriminate].
Qed.

(** [merge_graphs] raises exactly when a project label cannot be put in a
    set or the output file cannot be opened; it then leaves the world as
    it was: nothing is written and nothing printed. *)
Theorem merge_graphs_failure w graphs output_path :
  ((merge_graphs w graphs output_path).2 = None <->
   (~ Forall label_ok graphs \/ output_path ∈ locked w)) /\
  ((merge_graphs w graphs output_path).2 = None ->
   (merge_graphs w graphs output_path).1 = w).
Proof.
  split; [split|].
  - intros Hnone.
    destruct (decide (output_path ∈ locked w)) as [|Hw]; [by right|]. left.
    intros Hok.
    destruct (merge_graphs_returns now list_of_set w graphs output_path Hok Hw)
      as (w1 & merged1 & Hrun & _).
    rewrite Hrun in Hnone. discriminate.
  - intros Hbad.
    destruct (merge_graphs w graphs output_path) as [w' [merged|]] eqn:H; [|done].
    apply merge_graphs_inv in H. destruct H as (Hok & Hw & _).
    destruct Hbad; contradiction.
  - destruct (merge_graphs w graphs output_path) as [w' [merged|]] eqn:H;
      [discriminate|].
    intros _. simpl. by apply merge_graphs_failure_world in H.
Qed.

End Merge.

Definition sample_merge (graphs : list GraphData.t) : world * option GraphData.t :=
  merge_graphs "2025-01-01" (fun l => l) fresh_world graphs
    "unified_knowledge_graph.json".

Lemma merged_names_distinct_and_complete_witness :
  match sample_merge [graph_1; graph_2] with
  | (_, Some merged) =>
      NoDup (map CodeEntity.name (GraphData.entities merged)) /\
      (forall n,
          n ∈ map CodeEntity.name (GraphData.entities merged) <->
          n ∈ map CodeEntity.name
                (concat (map GraphData.entities [graph_1; graph_2])))
  | (_, None) => False
  end.
Proof.
  destruct (sample_merge [graph_1; graph_2]) as [w' [merged|]] eqn:H.
  - exact (merged_names_distinct_and_complete "2025-01-01" (fun l => l)
             fresh_world [graph_1; graph_2] "unified_knowledge_graph.json"
             w' merged H).
  - vm_compute in H. discriminate H.
Defined.

Lemma merge_graphs_grows_witness :
  match sample_merge ([graph_1] ++ [graph_2]) with
  | (_, Some merged) =>
      exists w1 merged1,
        sample_merge [graph_1] = (w1, Some merged1) /\
        GraphData.entities merged1 `prefix_of` GraphData.entities merged /\
        GraphData.relationships merged1
          `prefix_of` GraphData.relationships merged
  | (_, None) => False
  end.
Proof.
  destruct (sample_merge ([graph_1] ++ [graph_2])) as [w' [merged|]] eqn:H.
  - exact (merge_graphs_grows "2025-01-01" (fun l => l) fresh_world
             [graph_1] [graph_2] "unified_knowledge_graph.json" w' merged H).
  - vm_compute in H. discriminate H.
Defined.

Lemma merge_graphs_twice_witness :
  match sample_merge ([graph_1; graph_2] ++ [graph_1; graph_2]) with
  | (_, Some merged) =>
      exists w1 merged1,
        sample_merge [graph_1; graph_2] = (w1, Some merged1) /\
        GraphData.entities merged = GraphData.entities merged1 /\
        GraphData.relationships merged =
          GraphData.relationships merged1 ++ GraphData.relationships merged1
  | (_, None) => False
  end.
Proof.
  destruct (sample_merge ([graph_1; graph_2] ++ [graph_1; graph_2]))
    as [w' [merged|]] eqn:H.
  - exact (merge_graphs_twice "2025-01-01" (fun l => l) fresh_world
             [graph_1; graph_2] "unified_knowledge_graph.json" w' merged H).
  - vm_compute in H. discriminate H.
Defined.

Lemma merge_graphs_metadata_and_file_witness :
  match sample_merge [graph_1; graph_2] with
  | (w', Some merged) =>
      lookup "total_sessions" (GraphData.metadata merged)
        = Some (VInt (Z.of_nat (length [graph_1; graph_2]))) /\
      lookup "total_entities" (GraphData.metadata merged)
        = Some (VInt (Z.of_nat (length (GraphData.entities merged)))) /\
      lookup "total_relationships" (GraphData.metadata merged)
        = Some (VInt (Z.of_nat (length (GraphData.relationships merged)))) /\
      files w' !! "unified_knowledge_graph.json"
        = Some (written merged) /\
      (forall path, path <> "unified_knowledge_graph.json" ->
         files w' !! path = files fresh_world !! path)
  | (_, None) => False
  end.
Proof.
  destruct (sample_merge [graph_1; graph_2]) as [w' [merged|]] eqn:H.
  - exact (merge_graphs_metadata_and_file "2025-01-01" (fun l => l)
             fresh_world [graph_1; graph_2] "unified_knowledge_graph.json"
             w' merged H).
  - vm_compute in H. discriminate H.
Defined.

(** A graph whose project label is a list makes the merge raise. *)
Example merge_unhashable_label :
  (merge_graphs "2025-01-01" (fun l => l) fresh_world
     [graph_1;
      {| GraphData.entities := []; GraphData.relationships := [];
         GraphData.metadata := [("project_name", VList [VStr "agrama"])] |}]
     "unified_knowledge_graph.json")
  = (fresh_world, None).
Proof. vm_compute. reflexivity. Qed.

End MergerInvariants.

(** ** The extraction orchestrator: cache, counters, identities *)
Module AnalyzerInvariants.
Import Py LLMAnalyzer AnalyzerProperties.

Lemma string_app_inv_head (s a b : string) : (s ++ a = s ++ b)%string -> a = b.
Proof. induction s as [|c s IH]; simpl; [done|]. intros [= H]. by apply IH. Qed.

Lemma str_of_nat_inj a b : str_of_nat a = str_of_nat b -> a = b.
Proof.
  unfold str_of_nat. intros H.
  apply DecimalNat.Unsigned.to_uint_inj.
  assert (Hs : Some (Nat.to_uint a) = Some (Nat.to_uint b)).
  { rewrite <- !NilEmpty.usu. by rewrite H. }
  by inversion Hs.
Qed.

Lemma entity_id_inj sid uuid a b :
  entity_id sid uuid a = entity_id sid uuid b -> a = b.
Proof.
  unfold entity_id. destruct (negb (String.eqb uuid "")); intros H.
  - do 4 apply string_app_inv_head in H. by apply str_of_nat_inj.
  - do 2 apply string_app_inv_head in H. by apply str_of_nat_inj.
Qed.

Definition is_dict (v : value) : bool :=
  match v with VDict _ => true | _ => false end.

Lemma make_entities_ids sid uuid context items : forall i es,
  make_entities sid uuid context i items = Some es ->
  map Entity.id es =
    map (fun k => VStr (entity_id sid uuid k)) (seq i (length items)).
Proof.
  induction items as [|item items IH]; intros i es; simpl.
  - by intros [= <-].
  - destruct item; simpl; try discriminate.
    destruct (make_entities sid uuid context (S i) items) as [es'|] eqn:Hrest;
      simpl; [|discriminate].
    intros [= <-]. simpl. f_equal. by apply IH.
Qed.

Lemma make_entities_fails sid uuid context items : forall i,
  make_entities sid uuid context i items = None <->
  Exists (fun item => is_dict item = false) items.
Proof.
  induction items as [|item items IH]; intros i; simpl.
  - split; [discriminate | by intros ?%Exists_nil].
  - rewrite Exists_cons.
    destruct item; simpl; try (split; [by left | done]).
    specialize (IH (S i)).
    destruct (make_entities sid uuid context (S i) items) as [es'|]; simpl.
    + split; [discriminate|]. intros [|H]; [discriminate|].
      apply IH in H. discriminate.
    + split; [|done]. intros _. right. by apply IH.
Qed.

(** The entities built from the items of an answer are as many as the
    items, the [k]-th one identified by the session, the message and [k],
    so that their identities are pairwise distinct. *)
Theorem entity_identities sid uuid context items es :
  make_entities sid uuid context 0 items = Some es ->
  length es = length items /\
  (forall k e, es !! k = Some e ->
     Entity.id e = VStr (entity_id sid uuid k)) /\
  NoDup (map Entity.id es).
Proof.
  intros Hes. apply make_entities_ids in Hes.
  assert (Hlen : length es = length items).
  { apply (f_equal length) in Hes.
    by rewrite !length_map, length_seq in Hes. }
  split_and!; [done| |].
  - intros k e Hk.
    assert (Hid : map Entity.id es !! k = Some (Entity.id e))
      by (by rewrite list_lookup_fmap, Hk).
    rewrite Hes, list_lookup_fmap in Hid.
    rewrite lookup_seq_lt in Hid
      by (rewrite <- Hlen; by apply lookup_lt_Some in Hk).
    simpl in Hid. by inversion Hid.
  - rewrite Hes. apply NoDup_fmap_2; [|apply NoDup_seq].
    intros a b [= H]. by apply entity_id_inj in H.
Qed.

Definition two_items : list value :=
  [VDict [("name", VStr "buildGraph"); ("type", VStr "FUNCTION")];
   VDict [("name", VStr "buildGraph"); ("type", VStr "FUNCTION")]].

Lemma entity_identities_witness :
  match make_entities "s1" "m1" "" 0 two_items with
  | Some es =>
      length es = length two_items /\
      (forall k e, es !! k = Some e ->
         Entity.id e = VStr (entity_id "s1" "m1" k)) /\
      NoDup (map Entity.id es)
  | None => False
  end.
Proof.
  destruct (make_entities "s1" "m1" "" 0 two_items) as [es|] eqn:H.
  - exact (entity_identities "s1" "m1" "" two_items es H).
  - vm_compute in H. discriminate H.
Defined.



Section Analyzer.

Variable sha256_hex16 : string -> string.
Variable json_loads : string -> load_result.
Variable instructions : string.
Variable messages_create : nat -> string -> api_result.
Variable time_time : nat -> string.

Abbreviation analyze_try :=
  (analyze_try json_loads instructions messages_create time_time).
Abbreviation analyze_miss :=
  (analyze_miss json_loads instructions messages_create time_time).
Abbreviation analyze_message :=
  (analyze_message sha256_hex16 json_loads instructions messages_create time_time).
Abbreviation analyze_each :=
  (analyze_each sha256_hex16 json_loads instructions messages_create time_time).
Abbreviation extracted :=
  (extracted json_loads instructions messages_create).

(** What the body of the [try] does to the cache files and the counter of
    invocations. *)
Lemma analyze_try_cache self w key content context sid uuid self' w' r :
  analyze_try self w key content context sid uuid = (self', w', r) ->
  locked w' = locked w /\
  (files w' = files w \/
   exists payload, files w' = <[key := ValidJSON payload]> (files w)) /\
  (total_api_calls self' = S (total_api_calls self) \/
   total_api_calls self' = total_api_calls self /\ r = None).
Proof.
  unfold LLMAnalyzer.analyze_try, _save_to_cache. intros H.
  repeat case_match; simplify_eq; simpl; split_and!; eauto.
Qed.

Lemma load_effects self w key self0 w0 cached :
  _load_from_cache self w key = (self0, w0, cached) ->
  w0 = emit w (CacheLookup key) /\
  total_api_calls self0 = total_api_calls self /\
  analysis_errors self0 = analysis_errors self /\
  cache_hits self <= cache_hits self0 <= S (cache_hits self).
Proof.
  unfold _load_from_cache. intros H.
  repeat case_match; simplify_eq; simpl; split_and!; try done; lia.
Qed.

(** A call of [analyze_message] only ever writes the cache file of its own
    key: the other files are as before, no file is deleted, and the files
    that cannot be written stay the same. *)
Theorem analyze_message_cache_frame self w content context sid uuid :
  locked (analyze_message self w content context sid uuid).1.2 = locked w /\
  (forall k, k <> sha256_hex16 (content ++ context) ->
     files (analyze_message self w content context sid uuid).1.2 !! k
     = files w !! k) /\
  (forall k, is_Some (files w !! k) ->
     is_Some (files (analyze_message self w content context sid uuid).1.2 !! k)).
Proof.
  assert (Hcase :
    locked (analyze_message self w content context sid uuid).1.2 = locked w /\
    (files (analyze_message self w content context sid uuid).1.2 = files w \/
     exists payload,
       files (analyze_message self w content context sid uuid).1.2
       = <[sha256_hex16 (content ++ context) := ValidJSON payload]> (files w))).
  { unfold LLMAnalyzer.analyze_message, _create_cache_key.
    destruct (_ || _); [by split; [|left]|].
    destruct (_load_from_cache self w _) as [[self0 w0] cached] eqn:Hload.
    apply load_effects in Hload. destruct Hload as (-> & _).
    destruct (cache_hit cached); [by split; [|left]|].
    unfold LLMAnalyzer.analyze_miss.
    destruct (analyze_try _ _ _ _ _ _ _) as [[self1 w1] r] eqn:Htry.
    apply analyze_try_cache in Htry. destruct Htry as (Hl & Hf & _).
    by destruct r. }
  destruct Hcase as [Hl [Hf|[payload Hf]]]; rewrite Hf; split_and!; try done.
  - intros k Hk. by rewrite lookup_insert_ne.
  - intros k Hk.
    destruct (decide (k = sha256_hex16 (content ++ context))) as [->|Hne].
    + rewrite lookup_insert_eq. by eexists.
    + by rewrite lookup_insert_ne.
Qed.

Lemma analyze_message_counts self w content context sid uuid self' w' r :
  analyze_message self w content context sid uuid = (self', w', r) ->
  total_api_calls self <= total_api_calls self' /\
  cache_hits self <= cache_hits self' /\
  analysis_errors self <= analysis_errors self' /\
  api_calls (trace w) <= api_calls (trace w') /\
  total_api_calls self' + api_calls (trace w)
    <= total_api_calls self + api_calls (trace w') /\
  api_calls (trace w') + total_api_calls self + analysis_errors self
    <= api_calls (trace w) + total_api_calls self' + analysis_errors self'.
Proof.
  unfold LLMAnalyzer.analyze_message.
  destruct (_ || _); [intros [= <- <- <-]; lia|].
  destruct (_load_from_cache self w _) as [[self0 w0] cached] eqn:Hload.
  apply load_effects in Hload. destruct Hload as (-> & Ht0 & He0 & Hh0).
  destruct (cache_hit cached).
  - intros [= <- <- <-]. simpl. rewrite api_calls_app.
    change (api_calls [CacheLookup _]) with 0. lia.
  - unfold LLMAnalyzer.analyze_miss.
    destruct (analyze_try _ _ _ _ _ _ _) as [[self1 w1] r1] eqn:Htry.
    pose proof (analyze_try_effects _ _ _ _ _ _ _ _ _ _ _ _ _ _ Htry)
      as (_ & Hh1 & He1 & rest & Htr & Hq).
    apply analyze_try_cache in Htry. destruct Htry as (_ & _ & Hcount).
    assert (Hcalls : api_calls (trace w1) = S (api_calls (trace w))).
    { rewrite Htr. simpl.
      change (Sleep ?d :: ApiCall ?p :: rest) with ([Sleep d; ApiCall p] ++ rest).
      rewrite !api_calls_app, (api_calls_quiet rest Hq).
      change (api_calls [CacheLookup _]) with 0.
      change (api_calls [Sleep _; ApiCall _]) with 1. lia. }
    destruct r1 as [r1|]; intros [= <- <- <-]; simpl.
    + destruct Hcount as [Hc|[_ ?]]; [lia | discriminate].
    + rewrite api_calls_app. change (api_calls [ErrorAnalyzing _]) with 0.
      destruct Hcount as [Hc|[Hc _]]; lia.
Qed.

(** Over any sequence of calls the counters never decrease,
    [total_api_calls] grows by no more than the invocations of the
    external capability actually made, and every invocation is counted as
    a call or as an analysis error. *)
Theorem counters_track_invocations self w calls :
  total_api_calls self <= total_api_calls (analyze_each self w calls).1.1 /\
  cache_hits self <= cache_hits (analyze_each self w calls).1.1 /\
  analysis_errors self <= analysis_errors (analyze_each self w calls).1.1 /\
  total_api_calls (analyze_each self w calls).1.1 + api_calls (trace w)
    <= total_api_calls self
       + api_calls (trace (analyze_each self w calls).1.2) /\
  api_calls (trace (analyze_each self w calls).1.2)
    + total_api_calls self + analysis_errors self
    <= api_calls (trace w)
       + total_api_calls (analyze_each self w calls).1.1
       + analysis_errors (analyze_each self w calls).1.1.
Proof.
  revert self w. induction calls as [|c calls IH]; intros self w; simpl.
  - lia.
  - destruct (LLMAnalyzer.analyze_message _ _ _ _ _ self w _ _ _ _)
      as [[self1 w1] r] eqn:Hcall.
    apply analyze_message_counts in Hcall.
    destruct r as [r|]; simpl; [|lia].
    specialize (IH self1 w1).
    destruct (LLMAnalyzer.analyze_each _ _ _ _ _ self1 w1 calls)
      as [[self2 w2] rs].
    simpl in *. lia.
Qed.

Lemma miss_start self w content context :
  20 <= String.length (strip content) ->
  cache_hit (_load_from_cache self w (sha256_hex16 (content ++ context))).2 = None ->
  exists self0,
    (forall sid uuid,
       analyze_message self w content context sid uuid =
       analyze_miss self0
         (emit w (CacheLookup (sha256_hex16 (content ++ context))))
         (sha256_hex16 (content ++ context)) content context sid uuid) /\
    total_api_calls self0 = total_api_calls self /\
    analysis_errors self0 = analysis_errors self /\
    model self0 = model self.
Proof.
  intros Hlen Hmiss.
  destruct (_load_from_cache self w (sha256_hex16 (content ++ context)))
    as [[self0 w0] cached] eqn:Hload.
  simpl in Hmiss. exists self0.
  pose proof (load_effects _ _ _ _ _ _ Hload) as (-> & Ht & He & _).
  split_and!; try done.
  - intros sid uuid. unfold LLMAnalyzer.analyze_message, _create_cache_key.
    by rewrite (long_content content Hlen), Hload, Hmiss.
  - unfold _load_from_cache in Hload. repeat case_match; by simplify_eq.
Qed.

(** When the invocation of the external capability raises on a cache
    miss, [analyze_message] still returns: the empty result, with the
    failure reported and counted in [analysis_errors], the invocation not
    counted in [total_api_calls], and no cache file written. *)
Theorem failed_invocation_is_recovered self w content context sid uuid :
  20 <= String.length (strip content) ->
  cache_hit (_load_from_cache self w (sha256_hex16 (content ++ context))).2 = None ->
  messages_create (api_calls (trace w))
    (create_analysis_prompt instructions content context) = ApiRaises ->
  (analyze_message self w content context sid uuid).2
    = Some (empty_result sid uuid) /\
  analysis_errors (analyze_message self w content context sid uuid).1.1
    = S (analysis_errors self) /\
  total_api_calls (analyze_message self w content context sid uuid).1.1
    = total_api_calls self /\
  files (analyze_message self w content context sid uuid).1.2 = files w /\
  last (trace (analyze_message self w content context sid uuid).1.2)
    = Some (ErrorAnalyzing uuid).
Proof.
  intros Hlen Hmiss Hcreate.
  destruct (miss_start self w content context Hlen Hmiss)
    as (self0 & Hrun & Ht & He & _).
  rewrite Hrun.
  unfold LLMAnalyzer.analyze_miss, LLMAnalyzer.analyze_try. simpl.
  rewrite !api_calls_app.
  change (api_calls [CacheLookup _]) with 0. change (api_calls [Sleep _]) with 0.
  rewrite !Nat.add_0_r, Hcreate. simpl.
  split_and!; try done; try congruence.
  by rewrite last_snoc.
Qed.

(** When an item of the [entities] of the answer is not an object, the
    whole answer is dropped: the empty result is returned, the failure is
    reported and counted in [analysis_errors] (and the invocation in
    [total_api_calls]), and no cache file is written. *)
Theorem malformed_entity_drops_answer self w content context sid uuid
    blocks text json_str d items :
  20 <= String.length (strip content) ->
  cache_hit (_load_from_cache self w (sha256_hex16 (content ++ context))).2 = None ->
  messages_create (api_calls (trace w))
    (create_analysis_prompt instructions content context) = ApiResponse blocks ->
  response_text blocks = Some text ->
  extract_json text = Some json_str ->
  json_loads json_str = Loaded (VDict d) ->
  get d "entities" (VList []) = VList items ->
  Exists (fun item => is_dict item = false) items ->
  (analyze_message self w content context sid uuid).2
    = Some (empty_result sid uuid) /\
  analysis_errors (analyze_message self w content context sid uuid).1.1
    = S (analysis_errors self) /\
  total_api_calls (analyze_message self w content context sid uuid).1.1
    = S (total_api_calls self) /\
  files (analyze_message self w content context sid uuid).1.2 = files w /\
  last (trace (analyze_message self w content context sid uuid).1.2)
    = Some (ErrorAnalyzing uuid).
Proof.
  intros Hlen Hmiss Hcreate Htext Hjson Hload Hents Hbad.
  destruct (miss_start self w content context Hlen Hmiss)
    as (self0 & Hrun & Ht & He & _).
  rewrite Hrun.
  unfold LLMAnalyzer.analyze_miss, LLMAnalyzer.analyze_try. simpl.
  rewrite !api_calls_app.
  change (api_calls [CacheLookup _]) with 0. change (api_calls [Sleep _]) with 0.
  rewrite !Nat.add_0_r, Hcreate, Htext, Hjson, Hload.
  unfold normalize. simpl. rewrite Hents. simpl.
  apply (make_entities_fails sid uuid context items 0) in Hbad.
  rewrite Hbad. simpl.
  split_and!; try done; try congruence.
  by rewrite last_snoc.
Qed.

(** When the cache file cannot be written, the result of a successful
    extraction is still returned, with a warning printed, no analysis
    error counted and the cache files as before, so that the same request
    will invoke the external capability again. *)
Theorem unwritable_cache_is_not_fatal self w content context sid uuid es rs cs :
  20 <= String.length (strip content) ->
  cache_hit (_load_from_cache self w (sha256_hex16 (content ++ context))).2 = None ->
  sha256_hex16 (content ++ context) ∈ locked w ->
  extracted (api_calls (trace w)) content context sid uuid = Some (es, rs, cs) ->
  exists r,
    (analyze_message self w content context sid uuid).2 = Some r /\
    AnalysisResult.entities r = es /\
    AnalysisResult.relationships r = rs /\
    AnalysisResult.concepts r = cs /\
    AnalysisResult.model_version r = VStr (model self) /\
    analysis_errors (analyze_message self w content context sid uuid).1.1
      = analysis_errors self /\
    files (analyze_message self w content context sid uuid).1.2 = files w /\
    last (trace (analyze_message self w content context sid uuid).1.2)
      = Some WarnCacheSave.
Proof.
  intros Hlen Hmiss Hw Hx.
  destruct (miss_start self w content context Hlen Hmiss)
    as (self0 & Hrun & Ht & He & Hm).
  rewrite Hrun. unfold AnalyzerProperties.extracted in Hx.
  unfold LLMAnalyzer.analyze_miss, LLMAnalyzer.analyze_try. simpl.
  rewrite !api_calls_app.
  change (api_calls [CacheLookup _]) with 0. change (api_calls [Sleep _]) with 0.
  rewrite !Nat.add_0_r.
  destruct (messages_create _ _) as [|blocks]; [discriminate|].
  destruct (response_text blocks) as [text|]; simpl in Hx; [|discriminate].
  destruct (extract_json text) as [json_str|]; simpl in Hx; [|discriminate].
  destruct (json_loads json_str) as [parsed| |]; try discriminate.
  rewrite Hx. unfold _save_to_cache. simpl.
  destruct (decide (_ ∈ locked w)); [|contradiction]. simpl.
  eexists. split; [reflexivity|]. simpl.
  split_and!; try done; try congruence.
  by rewrite last_snoc.
Qed.

(** A cache file that holds a JSON document other than an object, and not
    an empty one, makes [analyze_message] raise: the exception of the
    reconstruction leaves the method, after the hit was counted and
    without any invocation of the external capability. *)
Theorem foreign_cache_payload_raises self w content context sid uuid payload :
  20 <= String.length (strip content) ->
  files w !! sha256_hex16 (content ++ context) = Some (ValidJSON payload) ->
  truthy payload = true ->
  is_dict payload = false ->
  (analyze_message self w content context sid uuid).2 = None /\
  cache_hits (analyze_message self w content context sid uuid).1.1
    = S (cache_hits self) /\
  analysis_errors (analyze_message self w content context sid uuid).1.1
    = analysis_errors self /\
  api_calls (trace (analyze_message self w content context sid uuid).1.2)
    = api_calls (trace w).
Proof.
  intros Hlen Hfile Htruthy Hdict.
  unfold LLMAnalyzer.analyze_message, _create_cache_key, _load_from_cache.
  rewrite (long_content content Hlen). simpl. rewrite Hfile. simpl.
  rewrite Htruthy. simpl.
  rewrite api_calls_app. change (api_calls [CacheLookup _]) with 0.
  split_and!; try done; try lia.
  by destruct payload.
Qed.

End Analyzer.

(** *** Sample runs *)

Definition sample_key : string := sample_hash (sample_content ++ sample_context).

Abbreviation sample_analyze create :=
  (analyze_message sample_hash answer_loads "" create sample_time).

Lemma failed_invocation_is_recovered_witness :
  (sample_analyze failing_create init fresh_world
     sample_content sample_context "s1" "m1").2
    = Some (empty_result "s1" "m1") /\
  analysis_errors (sample_analyze failing_create init fresh_world
     sample_content sample_context "s1" "m1").1.1
    = S (analysis_errors init) /\
  total_api_calls (sample_analyze failing_create init fresh_world
     sample_content sample_context "s1" "m1").1.1
    = total_api_calls init /\
  files (sample_analyze failing_create init fresh_world
     sample_content sample_context "s1" "m1").1.2 = files fresh_world /\
  last (trace (sample_analyze failing_create init fresh_world
     sample_content sample_context "s1" "m1").1.2)
    = Some (ErrorAnalyzing "m1").
Proof.
  apply (failed_invocation_is_recovered sample_hash answer_loads ""
           failing_create sample_time init fresh_world sample_content
           sample_context "s1" "m1").
  - vm_compute. lia.
  - reflexivity.
  - reflexivity.
Defined.

(** An answer whose entities are bare names. *)
Definition bare_json : string :=
  ParserProperties.object
    [ParserProperties.field "entities"
       (ParserProperties.array [ParserProperties.quoted "src/fre_true.zig"])].

Definition bare_loads (text : string) : load_result :=
  if String.eqb text bare_json
  then Loaded (VDict [("entities", VList [VStr "src/fre_true.zig"])])
  else DecodeError.

Definition bare_create (n : nat) (prompt : string) : api_result :=
  ApiResponse [TextBlock bare_json].

Lemma malformed_entity_drops_answer_witness :
  (analyze_message sample_hash bare_loads "" bare_create sample_time
     init fresh_world sample_content sample_context "s1" "m1").2
    = Some (empty_result "s1" "m1") /\
  analysis_errors (analyze_message sample_hash bare_loads "" bare_create
     sample_time init fresh_world sample_content sample_context "s1" "m1").1.1
    = S (analysis_errors init) /\
  total_api_calls (analyze_message sample_hash bare_loads "" bare_create
     sample_time init fresh_world sample_content sample_context "s1" "m1").1.1
    = S (total_api_calls init) /\
  files (analyze_message sample_hash bare_loads "" bare_create
     sample_time init fresh_world sample_content sample_context "s1" "m1").1.2
    = files fresh_world /\
  last (trace (analyze_message sample_hash bare_loads "" bare_create
     sample_time init fresh_world sample_content sample_context "s1" "m1").1.2)
    = Some (ErrorAnalyzing "m1").
Proof.
  apply (malformed_entity_drops_answer sample_hash bare_loads "" bare_create
           sample_time init fresh_world sample_content sample_context
           "s1" "m1" [TextBlock bare_json] bare_json bare_json
           [("entities", VList [VStr "src/fre_true.zig"])]
           [VStr "src/fre_true.zig"]).
  - vm_compute. lia.
  - reflexivity.
  - reflexivity.
  - reflexivity.
  - vm_compute. reflexivity.
  - vm_compute. reflexivity.
  - reflexivity.
  - apply Exists_cons_hd. reflexivity.
Defined.

Definition locked_world : world :=
  {| files := ∅; locked := {[sample_key]}; trace := [] |}.

Lemma unwritable_cache_is_not_fatal_witness :
  exists r,
    (sample_analyze helpful_create init locked_world
       sample_content sample_context "s1" "m1").2 = Some r /\
    AnalysisResult.entities r = sample_entities /\
    AnalysisResult.relationships r = sample_relationships /\
    AnalysisResult.concepts r = VList [VStr "FRE"] /\
    AnalysisResult.model_version r = VStr (model init) /\
    analysis_errors (sample_analyze helpful_create init locked_world
       sample_content sample_context "s1" "m1").1.1
      = analysis_errors init /\
    files (sample_analyze helpful_create init locked_world
       sample_content sample_context "s1" "m1").1.2 = files locked_world /\
    last (trace (sample_analyze helpful_create init locked_world
       sample_content sample_context "s1" "m1").1.2)
      = Some WarnCacheSave.
Proof.
  apply (unwritable_cache_is_not_fatal sample_hash answer_loads ""
           helpful_create sample_time init locked_world sample_content
           sample_context "s1" "m1" sample_entities sample_relationships
           (VList [VStr "FRE"])).
  - vm_compute. lia.
  - reflexivity.
  - simpl. apply elem_of_singleton_2. reflexivity.
  - vm_compute. reflexivity.
Defined.

Definition foreign_world : world :=
  {| files := {[sample_key := ValidJSON (VList [VStr "entities"])]};
     locked := ∅; trace := [] |}.

Lemma foreign_cache_payload_raises_witness :
  (sample_analyze helpful_create init foreign_world
     sample_content sample_context "s1" "m1").2 = None /\
  cache_hits (sample_analyze helpful_create init foreign_world
     sample_content sample_context "s1" "m1").1.1
    = S (cache_hits init) /\
  analysis_errors (sample_analyze helpful_create init foreign_world
     sample_content sample_context "s1" "m1").1.1
    = analysis_errors init /\
  api_calls (trace (sample_analyze helpful_create init foreign_world
     sample_content sample_context "s1" "m1").1.2)
    = api_calls (trace foreign_world).
Proof.
  apply (foreign_cache_payload_raises sample_hash answer_loads ""
           helpful_create sample_time init foreign_world sample_content
           sample_context "s1" "m1" (VList [VStr "entities"])).
  - vm_compute. lia.
  - apply lookup_singleton_eq.
  - reflexivity.
  - reflexivity.
Defined.

End AnalyzerInvariants.

(** ** The log-to-session parser: blocks, identity, failure, composition *)
Module ParserInvariants.
Import Py ConversationProcessor ParserProperties.

Definition block_is (kind : string) (item : value) : option dict :=
  match item with
  | VDict it => if eq_str (get it "type" VNone) kind then Some it else None
  | _ => None
  end.

(** The text a content block adds to the content of the message. *)
Definition text_of (item : value) : string :=
  match block_is "text" item with
  | Some it => match get it "text" (VStr "") with VStr t => t | _ => "" end
  | None => ""
  end.

(** A text block whose [text] is not a text. *)
Definition bad_text (item : value) : bool :=
  match block_is "text" item with
  | Some it => match get it "text" (VStr "") with VStr _ => false | _ => true end
  | None => false
  end.

Definition tool_use_of (item : value) : option value :=
  it ← block_is "tool_use" item;
  Some (VDict [("name", get it "name" (VStr ""));
               ("input", get it "input" (VDict []));
               ("id", get it "id" (VStr ""))]).

Definition tool_result_of (item : value) : option value :=
  it ← block_is "tool_result" item;
  Some (VDict [("content", get it "content" (VStr ""));
               ("tool_use_id", get it "tool_use_id" (VStr ""));
               ("is_error", get it "is_error" (VBool false))]).

Lemma eq_str_other v a b : a <> b -> eq_str v a = true -> eq_str v b = false.
Proof.
  destruct v; simpl; try done. intros Hab Ha.
  apply String.eqb_eq in Ha. subst. by apply String.eqb_neq.
Qed.

Lemma string_app_nil_r (s : string) : (s ++ "")%string = s.
Proof.
  induction s as [|c s IH]; [done|].
  change (String c (s ++ "") = String c s)%string. by rewrite IH.
Qed.

Lemma string_app_assoc (a b c : string) :
  ((a ++ b) ++ c)%string = (a ++ (b ++ c))%string.
Proof.
  induction a as [|x a IH]; [done|].
  change (String x ((a ++ b) ++ c) = String x (a ++ (b ++ c)))%string.
  by rewrite IH.
Qed.

Lemma block_step_spec st item :
  block_step st item =
  if bad_text item then None
  else Some {| b_content := (b_content st ++ text_of item)%string;
               b_tool_uses := b_tool_uses st ++ option_list (tool_use_of item);
               b_tool_results :=
                 b_tool_results st ++ option_list (tool_result_of item) |}.
Proof.
  destruct st as [c tu tr].
  unfold block_step, bad_text, text_of, tool_use_of, tool_result_of, block_is.
  destruct item as [| | | | | |it]; simpl; try by rewrite string_app_nil_r, !app_nil_r.
  destruct (eq_str (get it "type" VNone) "text") eqn:Htext.
  - rewrite (eq_str_other _ "text" "tool_use") by done.
    rewrite (eq_str_other _ "text" "tool_result") by done. simpl.
    destruct (get it "text" (VStr "")); simpl; try done.
    by rewrite !app_nil_r.
  - destruct (eq_str (get it "type" VNone) "tool_use") eqn:Huse.
    + rewrite (eq_str_other _ "tool_use" "tool_result") by done. simpl.
      by rewrite string_app_nil_r, app_nil_r.
    + destruct (eq_str (get it "type" VNone) "tool_result"); simpl;
        by rewrite string_app_nil_r, ?app_nil_r.
Qed.

Lemma block_loop_spec items : forall st,
  block_loop st items =
  if existsb bad_text items then None
  else Some {| b_content := (b_content st ++ String.concat "" (map text_of items))%string;
               b_tool_uses := b_tool_uses st ++ omap tool_use_of items;
               b_tool_results := b_tool_results st ++ omap tool_result_of items |}.
Proof.
  induction items as [|item items IH]; intros st; simpl.
  - destruct st. simpl. by rewrite string_app_nil_r, !app_nil_r.
  - rewrite block_step_spec. destruct (bad_text item); simpl; [done|].
    rewrite IH. destruct (existsb bad_text items); [done|]. simpl.
    f_equal. f_equal.
    + rewrite string_app_assoc. f_equal.
      destruct items; simpl; [by rewrite string_app_nil_r | done].
    + rewrite <- app_assoc. f_equal.
      unfold option_list. by destruct (tool_use_of item).
    + rewrite <- app_assoc. f_equal.
      unfold option_list. by destruct (tool_result_of item).
Qed.

(** For a record of type [user] or [assistant] whose message content is a
    list of blocks (and that has no [toolUseResult]): the content of the
    message is the texts of the [text] blocks, in order, stripped at both
    ends; its tool uses and tool results are those of the [tool_use] and
    [tool_result] blocks, in order; items that are not objects and blocks
    of another type are ignored; and one [text] block whose text is not a
    text makes the whole record an error, reported, without message. *)
Theorem content_blocks_parsed (d msg : dict) (items : list value) :
  is_turn_type (get d "type" VNone) = true ->
  lookup "message" d = Some (VDict msg) ->
  lookup "content" msg = Some (VList items) ->
  contains "toolUseResult" d = false ->
  _parse_message (VDict d) =
  if existsb bad_text items then (None, [ErrorParsingMessage])
  else
    (Some {|
       ConversationMessage.uuid := get d "uuid" (VStr "");
       ConversationMessage.timestamp := get d "timestamp" (VStr "");
       ConversationMessage.message_type := get d "type" (VStr "");
       ConversationMessage.content :=
         strip (String.concat "" (map text_of items));
       ConversationMessage.tool_uses := omap tool_use_of items;
       ConversationMessage.tool_results := omap tool_result_of items;
       ConversationMessage.session_id := get d "sessionId" (VStr "");
       ConversationMessage.parent_uuid := get d "parentUuid" VNone;
       ConversationMessage.cwd := get d "cwd" (VStr "");
       ConversationMessage.git_branch := get d "gitBranch" (VStr "")
     |}, []).
Proof.
  intros Hty Hmsg Hcontent Hside.
  unfold _parse_message, parse_message_try.
  unfold is_turn_type in Hty. rewrite Hty. simpl.
  unfold message_body, contains. rewrite Hmsg. simpl.
  unfold contains. rewrite Hcontent. simpl.
  rewrite block_loop_spec. simpl.
  destruct (existsb bad_text items); simpl; [done|].
  unfold side_channel. rewrite Hside. done.
Qed.

Lemma content_blocks_parsed_witness :
  _parse_message doc_assistant =
  if existsb bad_text
       [VDict [("type", VStr "text"); ("text", VStr "ok")];
        VDict [("type", VStr "tool_use"); ("name", VStr "Read");
               ("input", VDict []); ("id", VStr "t1")]]
  then (None, [ErrorParsingMessage])
  else
    (Some {|
       ConversationMessage.uuid := VStr "b";
       ConversationMessage.timestamp := VStr "";
       ConversationMessage.message_type := VStr "assistant";
       ConversationMessage.content := "ok";
       ConversationMessage.tool_uses :=
         [VDict [("name", VStr "Read"); ("input", VDict []); ("id", VStr "t1")]];
       ConversationMessage.tool_results := [];
       ConversationMessage.session_id := VStr "s1";
       ConversationMessage.parent_uuid := VNone;
       ConversationMessage.cwd := VStr "";
       ConversationMessage.git_branch := VStr ""
     |}, []).
Proof.
  apply (content_blocks_parsed (fields_of doc_assistant)
           [("content", VList
               [VDict [("type", VStr "text"); ("text", VStr "ok")];
                VDict [("type", VStr "tool_use"); ("name", VStr "Read");
                       ("input", VDict []); ("id", VStr "t1")]])]
           [VDict [("type", VStr "text"); ("text", VStr "ok")];
            VDict [("type", VStr "tool_use"); ("name", VStr "Read");
                   ("input", VDict []); ("id", VStr "t1")]]);
    reflexivity.
Defined.

(** A text block whose text is a number loses the whole record. *)
Example text_block_with_number :
  _parse_message
    (VDict [("type", VStr "assistant");
            ("message", VDict [("content", VList
               [VDict [("type", VStr "text"); ("text", VStr "fine")];
                VDict [("type", VStr "text"); ("text", VInt 42)]])])])
  = (None, [ErrorParsingMessage]).
Proof. reflexivity. Qed.

(** The first session identifier, among those of the messages, that is
    not empty. *)
Definition first_session_id (ms : list ConversationMessage.t) : option value :=
  head (filter (fun v => truthy v = true) (map ConversationMessage.session_id ms)).

Section Parser.

Variable json_loads : string -> load_result.

Abbreviation parse_jsonl_file := (parse_jsonl_file json_loads).
Abbreviation line_loop := (line_loop json_loads).
Abbreviation line_step := (line_step json_loads).

Definition session_id_inv (st : reading) : Prop :=
  first_session_id (r_messages st) =
  if truthy (r_session_id st) then Some (r_session_id st) else None.

Lemma first_session_id_snoc ms m :
  first_session_id (ms ++ [m]) =
  match first_session_id ms with
  | Some v => Some v
  | None => if truthy (ConversationMessage.session_id m)
            then Some (ConversationMessage.session_id m) else None
  end.
Proof.
  unfold first_session_id. rewrite map_app, filter_app. simpl.
  destruct (filter _ (map ConversationMessage.session_id ms)) as [|v vs]; simpl.
  - rewrite filter_cons. destruct (decide _) as [Ht|Ht]; simpl.
    + by rewrite Ht.
    + by apply not_true_is_false in Ht as ->.
  - done.
Qed.

Lemma line_step_session_id file_path n line st st' :
  session_id_inv st ->
  line_step file_path n line st = inr st' ->
  session_id_inv st'.
Proof.
  unfold session_id_inv. intros Hinv. unfold ConversationProcessor.line_step.
  destruct (String.eqb (strip line) ""); [by intros [= <-]|].
  destruct (json_loads (strip line)) as [data| |]; try discriminate.
  - destruct (_parse_message data) as [[m|] printed]; intros [= <-]; simpl; [|done].
    rewrite first_session_id_snoc, Hinv.
    destruct (truthy (r_session_id st)) eqn:Ht; simpl; [by rewrite Ht|].
    by destruct (truthy (ConversationMessage.session_id m)) eqn:Hm; rewrite ?Hm.
  - by intros [= <-].
Qed.

Lemma line_loop_session_id file_path ls : forall n st st',
  session_id_inv st ->
  line_loop file_path n ls st = inr st' ->
  session_id_inv st'.
Proof.
  induction ls as [|l ls IH]; intros n st st' Hinv; simpl.
  - by intros [= <-].
  - destruct (line_step file_path n l st) as [|st1] eqn:Hs; [discriminate|].
    apply IH. eapply line_step_session_id; eauto.
Qed.

(** The session takes the identifier of the first of its messages that
    has one that is not empty, and the stem of the file name when no
    message has one. *)
Theorem session_id_of_first_message file_path f s out :
  parse_jsonl_file file_path f = (Some s, out) ->
  ConversationSession.session_id s =
  match first_session_id (ConversationSession.messages s) with
  | Some v => v
  | None => VStr (stem file_path)
  end.
Proof.
  unfold ConversationProcessor.parse_jsonl_file.
  destruct (line_loop file_path 0 (lines f) _) as [|st] eqn:Hloop; [discriminate|].
  destruct (read_error f); [discriminate|].
  apply line_loop_session_id in Hloop; [|done].
  unfold session_id_inv in Hloop.
  destruct (r_messages st) as [|m ms] eqn:Hms; [discriminate|].
  intros [= <- _]. simpl. rewrite Hloop.
  by destruct (truthy (r_session_id st)).
Qed.

Definition decodes_or_fails (line : string) : Prop :=
  json_loads (strip line) <> OtherError.

(** A line on which [json.loads] raises something else than a decode
    error. *)
Definition breaks (line : string) : Prop :=
  strip line <> "" /\ json_loads (strip line) = OtherError.

Lemma yielded_run file_path ls :
  Forall decodes_or_fails ls ->
  yielded (parse_jsonl_file file_path {| lines := ls; read_error := false |})
  = omap (line_message json_loads) ls.
Proof.
  intros Hno.
  destruct (line_loop_run json_loads file_path ls 0
              {| r_messages := []; r_session_id := VNone; r_out := [] |} Hno)
    as (st & Hloop & Hm & _).
  simpl in Hm. unfold yielded, ConversationProcessor.parse_jsonl_file. simpl.
  rewrite Hloop, <- Hm. by destruct (r_messages st).
Qed.

Lemma session_has_messages file_path f s :
  (parse_jsonl_file file_path f).1 = Some s ->
  ConversationSession.messages s <> [].
Proof.
  unfold ConversationProcessor.parse_jsonl_file.
  destruct (line_loop file_path 0 (lines f) _) as [|st]; [discriminate|].
  destruct (read_error f); [discriminate|].
  destruct (r_messages st) as [|m ms]; [discriminate|].
  simpl. by intros [= <-].
Qed.

(** For a file read to its end on which [json.loads] raises nothing but
    decode errors, no session is built exactly when no line yields a
    message; a session that is built is never without messages. *)
Theorem no_session_without_messages file_path ls :
  Forall decodes_or_fails ls ->
  ((parse_jsonl_file file_path {| lines := ls; read_error := false |}).1 = None
   <-> Forall (fun line => parses json_loads line = false) ls) /\
  (forall s,
     (parse_jsonl_file file_path {| lines := ls; read_error := false |}).1 = Some s ->
     ConversationSession.messages s <> []).
Proof.
  intros Hno. split; [|intros s; apply session_has_messages].
  pose proof (yielded_run file_path ls Hno) as Hy.
  assert (Hnil : omap (line_message json_loads) ls = []
                 <-> Forall (fun line => parses json_loads line = false) ls).
  { clear. induction ls as [|l ls IH]; simpl; [by split; [constructor|]|].
    rewrite Forall_cons. unfold parses at 1.
    destruct (line_message json_loads l).
    - split; [discriminate | by intros [? _]].
    - rewrite IH. tauto. }
  rewrite <- Hnil, <- Hy. unfold yielded.
  destruct (parse_jsonl_file _ _).1 as [s|] eqn:Hs; [|done].
  apply session_has_messages in Hs. split; [discriminate | done].
Qed.

Lemma line_loop_inr file_path ls : forall n st st',
  line_loop file_path n ls st = inr st' -> Forall (fun line => ~ breaks line) ls.
Proof.
  induction ls as [|l ls IH]; intros n st st'; simpl; [constructor|].
  destruct (line_step file_path n l st) as [|st1] eqn:Hs; [discriminate|].
  intros Hloop. constructor; [|by eapply IH].
  unfold ConversationProcessor.line_step in Hs. unfold breaks.
  destruct (String.eqb (strip l) "") eqn:Hblank.
  - apply String.eqb_eq in Hblank. by intros [? _].
  - intros [_ Hbad]. by rewrite Hbad in Hs.
Qed.

(** When reading the file raises, or [json.loads] raises something else
    than a decode error on one line, no session is returned, whatever was
    parsed before, and the failure is the last thing reported. *)
Theorem failed_file_yields_nothing file_path f :
  read_error f = true \/ Exists breaks (lines f) ->
  (parse_jsonl_file file_path f).1 = None /\
  last (parse_jsonl_file file_path f).2
    = Some (ErrorProcessing (path_str file_path)).
Proof.
  intros Hbad. unfold ConversationProcessor.parse_jsonl_file.
  destruct (line_loop file_path 0 (lines f) _) as [printed|st] eqn:Hloop; simpl.
  - by rewrite last_snoc.
  - destruct (read_error f) eqn:Hread; simpl; [by rewrite last_snoc|].
    destruct Hbad as [|Hbad]; [discriminate|].
    apply line_loop_inr in Hloop.
    apply Exists_exists in Hbad. destruct Hbad as (l & Hl & Hb).
    rewrite Forall_forall in Hloop. by apply Hloop in Hl.
Qed.

(** The messages of two logs put one after the other are those of the
    first followed by those of the second. *)
Theorem messages_of_concatenated_logs file_path ls1 ls2 :
  Forall decodes_or_fails ls1 ->
  Forall decodes_or_fails ls2 ->
  yielded (parse_jsonl_file file_path
             {| lines := ls1 ++ ls2; read_error := false |})
  = yielded (parse_jsonl_file file_path {| lines := ls1; read_error := false |})
    ++ yielded (parse_jsonl_file file_path {| lines := ls2; read_error := false |}).
Proof.
  intros H1 H2.
  rewrite !yielded_run by (try apply Forall_app; done).
  apply omap_app.
Qed.

End Parser.

Lemma no_session_without_messages_witness :
  ((ConversationProcessor.parse_jsonl_file sample_loads sample_path
      {| lines := [ended text_meta; ended ""]; read_error := false |}).1 = None
   <-> Forall (fun line => parses sample_loads line = false)
         [ended text_meta; ended ""]) /\
  (forall s,
     (ConversationProcessor.parse_jsonl_file sample_loads sample_path
        {| lines := [ended text_meta; ended ""]; read_error := false |}).1 = Some s ->
     ConversationSession.messages s <> []).
Proof.
  apply (no_session_without_messages sample_loads sample_path
           [ended text_meta; ended ""]).
  repeat constructor; vm_compute; discriminate.
Defined.

Lemma session_id_of_first_message_witness :
  match (ConversationProcessor.parse_jsonl_file sample_loads sample_path
           sample_file).1 with
  | Some s =>
      ConversationSession.session_id s =
      match first_session_id (ConversationSession.messages s) with
      | Some v => v
      | None => VStr (stem sample_path)
      end
  | None => False
  end.
Proof.
  destruct (ConversationProcessor.parse_jsonl_file sample_loads sample_path
              sample_file) as [[s|] out] eqn:H; simpl.
  - exact (session_id_of_first_message sample_loads sample_path sample_file s out H).
  - vm_compute in H. discriminate H.
Defined.

(** A log without session identifiers takes the stem of the file name. *)
Example session_id_from_stem :
  ConversationSession.session_id <$>
    (ConversationProcessor.parse_jsonl_file sample_loads sample_path
       {| lines := [ended text_tool_output]; read_error := false |}).1
  = Some (VStr "session").
Proof. vm_compute. reflexivity. Qed.

Definition broken_file : file_read :=
  {| lines := [ended text_user; ended text_assistant]; read_error := true |}.

Lemma failed_file_yields_nothing_witness :
  (ConversationProcessor.parse_jsonl_file sample_loads sample_path broken_file).1
    = None /\
  last (ConversationProcessor.parse_jsonl_file sample_loads sample_path
          broken_file).2
    = Some (ErrorProcessing (path_str sample_path)).
Proof.
  apply (failed_file_yields_nothing sample_loads sample_path broken_file).
  left. reflexivity.
Defined.

Lemma messages_of_concatenated_logs_witness :
  yielded (ConversationProcessor.parse_jsonl_file sample_loads sample_path
             {| lines := [ended text_user; ended text_meta]
                         ++ [ended text_assistant];
                read_error := false |})
  = yielded (ConversationProcessor.parse_jsonl_file sample_loads sample_path
               {| lines := [ended text_user; ended text_meta];
                  read_error := false |})
    ++ yielded (ConversationProcessor.parse_jsonl_file sample_loads sample_path
                  {| lines := [ended text_assistant]; read_error := false |}).
Proof.
  apply (messages_of_concatenated_logs sample_loads sample_path
           [ended text_user; ended text_meta] [ended text_assistant]);
    repeat constructor; vm_compute; discriminate.
Defined.

End ParserInvariants.

(** ** tools/conversation_processor.py: the processor object

    The methods of [ConversationProcessor] that work on the sessions the
    object holds. *)
Module ProcessorObject.
Import Py ConversationProcessor.

(** The fields of the object. *)
Record t := {
  sessions : list ConversationSession.t;
  file_patterns : gset string;
  tool_patterns : gset string
}.

Definition init : t :=
  {| sessions := []; file_patterns := ∅; tool_patterns := ∅ |}.

(** Lines printed by [process_directory]. *)
Inductive output :=
| Processing (file : string)
| Parsing (e : event)
| Processed (total_messages tool_uses : nat).

(** The statistics kept for one project. *)
Record project_stats := {
  p_sessions : nat;
  p_messages : nat;
  p_tool_uses : nat
}.

(** Lines 221-230: the entry of the project of [session] is created when
    missing, at the end of the dict, and the session added to it. *)
Fixpoint bump (session : ConversationSession.t)
    (projects : list (string * project_stats)) : list (string * project_stats) :=
  match projects with
  | [] =>
      [(ConversationSession.project_name session,
        {| p_sessions := 1;
           p_messages := ConversationSession.total_messages session;
           p_tool_uses := ConversationSession.tool_uses session |})]
  | (name, p) :: rest =>
      if String.eqb (ConversationSession.project_name session) name
      then (name,
            {| p_sessions := p_sessions p + 1;
               p_messages := p_messages p
                             + ConversationSession.total_messages session;
               p_tool_uses := p_tool_uses p
                              + ConversationSession.tool_uses session |}) :: rest
      else (name, p) :: bump session rest
  end.

Definition project_table (ss : list ConversationSession.t)
  : list (string * project_stats) :=
  foldl (fun projects session => bump session projects) [] ss.

Definition project_entry (entry : string * project_stats) : string * value :=
  (entry.1,
   VDict [("sessions", VInt (Z.of_nat (p_sessions entry.2)));
          ("messages", VInt (Z.of_nat (p_messages entry.2)));
          ("tool_uses", VInt (Z.of_nat (p_tool_uses entry.2)))]).

(** A [list] or a [dict] cannot be put in a [set] ([TypeError]). *)
Definition hashable (v : value) : bool :=
  match v with
  | VList _ | VDict _ => false
  | _ => true
  end.

(** Lines 234-235: the names added to [tools_used] for one message;
    [None] is a raised exception. *)
Fixpoint tool_names (tool_uses : list value) : option (list value) :=
  match tool_uses with
  | [] => Some []
  | tool_use :: rest =>
      name ← subscript tool_use "name";
      if hashable name then names ← tool_names rest; Some (name :: names)
      else None
  end.

(** [sorted(list(s))] for a set [s] of texts: without repetition, in the
    order of the code points. *)
Fixpoint insert_sorted (x : string) (l : list string) : list string :=
  match l with
  | [] => [x]
  | y :: rest =>
      match String.compare x y with
      | Lt => x :: l
      | Eq => l
      | Gt => y :: insert_sorted x rest
      end
  end.

Definition sorted_strings (l : list string) : list string :=
  foldr insert_sorted [] l.

Definition text_of_value (v : value) : option string :=
  match v with VStr s => Some s | _ => None end.

Definition total (f : ConversationSession.t -> nat)
    (ss : list ConversationSession.t) : nat :=
  list_sum (map f ss).

Section Processor.

(** [json.loads], of the standard library. *)
Variable json_loads : string -> load_result.

(** [directory.glob(pattern)]: the files found, in the order of the
    iteration. *)
Variable glob : Path -> string -> list Path.

(** What reading each file gives. *)
Variable read : Path -> file_read.

(** [re.findall(r'\b\w+\.\w+\b', content)], of the standard library. *)
Variable findall_file_patterns : string -> list string.

(** [sorted(list(s))] for a set [s] to which the given values, not all of
    them texts, were added in turn; [None] when two of them cannot be
    ordered ([TypeError]). *)
Variable sorted_mixed : list value -> option (list value).

(** The loop of [process_directory] (lines 193-198). *)
Fixpoint process_files (files : list Path)
  : list ConversationSession.t * list output :=
  match files with
  | [] => ([], [])
  | jsonl_file :: rest =>
      let '(session, printed) :=
        parse_jsonl_file json_loads jsonl_file (read jsonl_file) in
      let '(found, out) := process_files rest in
      match session with
      | Some s =>
          (s :: found,
           Processing (path_str jsonl_file) :: map Parsing printed ++
           Processed (ConversationSession.total_messages s)
                     (ConversationSession.tool_uses s) :: out)
      | None =>
          (found, Processing (path_str jsonl_file) :: map Parsing printed ++ out)
      end
  end.

(** [process_directory]: the object, the sessions returned and what was
    printed. *)
Definition process_directory (self : t) (directory : Path) (recursive : bool)
  : t * list ConversationSession.t * list output :=
  let pattern := if recursive then "**/*.jsonl" else "*.jsonl" in
  let '(found, out) := process_files (glob directory pattern) in
  ({| sessions := sessions self ++ found;
      file_patterns := file_patterns self;
      tool_patterns := tool_patterns self |},
   found, out).

(** Lines 233-239 for the messages of all sessions: the tool names and
    the file patterns added to the two sets, in the order of the
    additions; [None] is a raised exception. *)
Fixpoint collect_messages (ms : list ConversationMessage.t)
  : option (list value * list string) :=
  match ms with
  | [] => Some ([], [])
  | message :: rest =>
      names ← tool_names (ConversationMessage.tool_uses message);
      let file_matches :=
        findall_file_patterns (ConversationMessage.content message) in
      '(names', patterns) ← collect_messages rest;
      Some (names ++ names', take 10 file_matches ++ patterns)
  end.

Definition sorted_names (names : list value) : option (list value) :=
  match mapM text_of_value names with
  | Some texts => Some (map VStr (sorted_strings texts))
  | None => sorted_mixed names
  end.

(** [get_statistics]; [None] is a raised exception. *)
Definition get_statistics (self : t) : option value :=
  match sessions self with
  | [] => Some (VDict [])
  | ss =>
      '(names, patterns) ←
        collect_messages (concat (map ConversationSession.messages ss));
      tools_used ← sorted_names names;
      Some (VDict
        [("total_sessions", VInt (Z.of_nat (length ss)));
         ("total_messages",
          VInt (Z.of_nat (total ConversationSession.total_messages ss)));
         ("total_user_messages",
          VInt (Z.of_nat (total ConversationSession.user_messages ss)));
         ("total_assistant_messages",
          VInt (Z.of_nat (total ConversationSession.assistant_messages ss)));
         ("total_tool_uses",
          VInt (Z.of_nat (total ConversationSession.tool_uses ss)));
         ("projects", VDict (map project_entry (project_table ss)));
         ("tools_used", VList tools_used);
         ("file_patterns", VList (map VStr (sorted_strings patterns)))])
  end.

End Processor.

End ProcessorObject.

(** ** The processor object: accumulation and statistics *)
Module ProcessorObjectProperties.
Import Py ConversationProcessor ProcessorObject ParserProperties.

Lemma omap_length_le {A B} (f : A -> option B) (l : list A) :
  length (omap f l) <= length l.
Proof.
  induction l as [|x l IH]; [done|].
  change (x :: l) with ([x] ++ l).
  rewrite omap_app, !length_app. simpl.
  destruct (f x); simpl; lia.
Qed.

Definition keys (projects : list (string * project_stats)) : list string :=
  map fst projects.

Definition sum_of (f : project_stats -> nat)
    (projects : list (string * project_stats)) : nat :=
  list_sum (map (fun entry => f entry.2) projects).

Lemma bump_spec session projects :
  sum_of p_sessions (bump session projects) = sum_of p_sessions projects + 1 /\
  sum_of p_messages (bump session projects)
    = sum_of p_messages projects + ConversationSession.total_messages session /\
  sum_of p_tool_uses (bump session projects)
    = sum_of p_tool_uses projects + ConversationSession.tool_uses session /\
  (forall name, name ∈ keys (bump session projects) <->
     name ∈ keys projects \/ name = ConversationSession.project_name session) /\
  (NoDup (keys projects) -> NoDup (keys (bump session projects))).
Proof.
  unfold sum_of, keys.
  induction projects as [|[name p] rest IH]; simpl.
  - split_and!; try lia.
    + intros n. rewrite list_elem_of_singleton, elem_of_nil. tauto.
    + intros _. apply NoDup_singleton.
  - destruct IH as (IH1 & IH2 & IH3 & IH4 & IH5).
    destruct (String.eqb _ name) eqn:Heq; simpl.
    + apply String.eqb_eq in Heq. split_and!; try lia; [|done].
      intros n. rewrite elem_of_cons. split; [tauto|].
      intros [H| ->]; [done|]. by left.
    + split_and!; try lia.
      * intros n. rewrite !elem_of_cons, IH4. tauto.
      * intros Hnd. apply NoDup_cons in Hnd. destruct Hnd as [Hn Hnd].
        apply NoDup_cons. split; [|by apply IH5].
        rewrite IH4. intros [H| ->]; [done|].
        by rewrite String.eqb_refl in Heq.
Qed.

Lemma project_table_spec ss : forall projects,
  NoDup (keys projects) ->
  let table := foldl (fun projects session => bump session projects) projects ss in
  NoDup (keys table) /\
  sum_of p_sessions table = sum_of p_sessions projects + length ss /\
  sum_of p_messages table
    = sum_of p_messages projects + total ConversationSession.total_messages ss /\
  sum_of p_tool_uses table
    = sum_of p_tool_uses projects + total ConversationSession.tool_uses ss /\
  (forall name, name ∈ keys table <->
     name ∈ keys projects \/
     name ∈ map ConversationSession.project_name ss).
Proof.
  unfold total.
  induction ss as [|s ss IH]; intros projects Hnd; simpl.
  - split_and!; try done; try lia. intros n. rewrite elem_of_nil. tauto.
  - destruct (bump_spec s projects) as (H1 & H2 & H3 & H4 & H5).
    destruct (IH (bump s projects) (H5 Hnd)) as (I0 & I1 & I2 & I3 & I4).
    split_and!; try done; try lia.
    intros n. rewrite I4, H4, elem_of_cons. tauto.
Qed.

Section Processor.

Variable json_loads : string -> load_result.
Variable glob : Path -> string -> list Path.
Variable read : Path -> file_read.
Variable findall_file_patterns : string -> list string.
Variable sorted_mixed : list value -> option (list value).

Abbreviation process_files := (process_files json_loads read).
Abbreviation process_directory := (process_directory json_loads glob read).
Abbreviation get_statistics :=
  (get_statistics findall_file_patterns sorted_mixed).

Lemma process_files_found files :
  (process_files files).1 =
  omap (fun file => (parse_jsonl_file json_loads file (read file)).1) files.
Proof.
  induction files as [|file files IH]; simpl; [done|].
  destruct (parse_jsonl_file json_loads file (read file)) as [[s|] printed];
    destruct (process_files files) as [found out]; simpl in *; by rewrite IH.
Qed.

(** A session that [parse_jsonl_file] built: it has messages and its
    counts by role add up. *)
Definition well_formed (s : ConversationSession.t) : Prop :=
  ConversationSession.messages s <> [] /\
  ConversationSession.user_messages s + ConversationSession.assistant_messages s
    = ConversationSession.total_messages s.

Lemma process_files_well_formed files :
  Forall well_formed (process_files files).1.
Proof.
  rewrite process_files_found.
  induction files as [|file files IH]; simpl; [constructor|].
  destruct (parse_jsonl_file json_loads file (read file)) as [[s|] printed] eqn:H;
    simpl; [|done].
  constructor; [|done]. split.
  - eapply (ParserInvariants.session_has_messages json_loads file (read file)).
    by rewrite H.
  - apply parse_jsonl_file_session in H.
    destruct H as (Hturn & Htotal & Huser & Hassistant & _).
    rewrite Huser, Hassistant, Htotal. by apply count_types.
Qed.

(** [process_directory] returns at most one session per file found, each
    with messages, and adds them to those the object holds; processing the
    same directory again adds the same sessions a second time. *)
Theorem process_directory_accumulates self directory recursive :
  sessions (process_directory self directory recursive).1.1
    = sessions self ++ (process_directory self directory recursive).1.2 /\
  length (process_directory self directory recursive).1.2
    <= length (glob directory (if recursive then "**/*.jsonl" else "*.jsonl")) /\
  Forall (fun s => ConversationSession.messages s <> [])
    (process_directory self directory recursive).1.2 /\
  sessions (process_directory
              (process_directory self directory recursive).1.1
              directory recursive).1.1
    = sessions self ++ (process_directory self directory recursive).1.2
      ++ (process_directory self directory recursive).1.2.
Proof.
  unfold ProcessorObject.process_directory.
  set (files := glob directory _).
  pose proof (process_files_found files) as Hfound.
  pose proof (process_files_well_formed files) as Hwf.
  destruct (process_files files) as [found out]. simpl in *.
  split_and!; [done| | |by rewrite <- app_assoc].
  - rewrite Hfound. apply omap_length_le.
  - eapply Forall_impl; [exact Hwf|]. by intros s [? _].
Qed.

Lemma get_statistics_inv self stats :
  sessions self <> [] ->
  get_statistics self = Some (VDict stats) ->
  exists tools_used patterns,
    stats =
      [("total_sessions", VInt (Z.of_nat (length (sessions self))));
       ("total_messages",
        VInt (Z.of_nat (total ConversationSession.total_messages (sessions self))));
       ("total_user_messages",
        VInt (Z.of_nat (total ConversationSession.user_messages (sessions self))));
       ("total_assistant_messages",
        VInt (Z.of_nat (total ConversationSession.assistant_messages (sessions self))));
       ("total_tool_uses",
        VInt (Z.of_nat (total ConversationSession.tool_uses (sessions self))));
       ("projects", VDict (map project_entry (project_table (sessions self))));
       ("tools_used", VList tools_used);
       ("file_patterns", VList patterns)].
Proof.
  unfold ProcessorObject.get_statistics.
  destruct (sessions self) as [|s ss]; [done|]. intros _.
  destruct (collect_messages _ _) as [[names patterns]|]; simpl; [|discriminate].
  destruct (sorted_names _ names) as [tools_used|]; simpl; [|discriminate].
  intros [= <-]. by do 2 eexists.
Qed.

(** The statistics by project add up to the totals: the projects listed
    are those of the sessions, each once, and their numbers of sessions,
    messages and tool uses sum to the totals reported. *)
Theorem statistics_by_project_add_up self stats :
  sessions self <> [] ->
  get_statistics self = Some (VDict stats) ->
  lookup "projects" stats
    = Some (VDict (map project_entry (project_table (sessions self)))) /\
  NoDup (keys (project_table (sessions self))) /\
  (forall name, name ∈ keys (project_table (sessions self)) <->
     name ∈ map ConversationSession.project_name (sessions self)) /\
  lookup "total_sessions" stats
    = Some (VInt (Z.of_nat (sum_of p_sessions (project_table (sessions self))))) /\
  lookup "total_messages" stats
    = Some (VInt (Z.of_nat (sum_of p_messages (project_table (sessions self))))) /\
  lookup "total_tool_uses" stats
    = Some (VInt (Z.of_nat (sum_of p_tool_uses (project_table (sessions self))))).
Proof.
  clear json_loads glob read. intros Hne Hstats.
  destruct (get_statistics_inv self stats Hne Hstats) as (tools & patterns & ->).
  destruct (project_table_spec (sessions self) [] (NoDup_nil_2))
    as (Hnd & Hs & Hm & Ht & Hk).
  fold (project_table (sessions self)) in Hnd, Hs, Hm, Ht, Hk.
  unfold sum_of in Hs, Hm, Ht |- *. simpl in Hs, Hm, Ht |- *.
  rewrite Hs, Hm, Ht. split_and!; try done.
  intros name. rewrite Hk, elem_of_nil. tauto.
Qed.

Lemma total_by_role ss :
  Forall well_formed ss ->
  total ConversationSession.user_messages ss
  + total ConversationSession.assistant_messages ss
  = total ConversationSession.total_messages ss.
Proof.
  unfold total. induction 1 as [|s ss [_ Hs] _ IH]; simpl; lia.
Qed.

(** For the sessions a new object takes from a directory, the messages
    of users and of assistants reported add up to the messages reported. *)
Theorem processed_statistics_by_role directory recursive stats :
  sessions (process_directory init directory recursive).1.1 <> [] ->
  get_statistics (process_directory init directory recursive).1.1
    = Some (VDict stats) ->
  exists users assistants messages : nat,
    lookup "total_user_messages" stats = Some (VInt (Z.of_nat users)) /\
    lookup "total_assistant_messages" stats = Some (VInt (Z.of_nat assistants)) /\
    lookup "total_messages" stats = Some (VInt (Z.of_nat messages)) /\
    users + assistants = messages.
Proof.
  intros Hne Hstats.
  destruct (get_statistics_inv _ stats Hne Hstats) as (tools & patterns & ->).
  do 3 eexists. split_and!; try reflexivity.
  apply total_by_role.
  unfold ProcessorObject.process_directory.
  pose proof (process_files_well_formed
                (glob directory (if recursive then "**/*.jsonl" else "*.jsonl")))
    as Hwf.
  destruct (process_files _) as [found out]. simpl in *. done.
Qed.

End Processor.

(** *** A sample directory *)

Definition other_path : Path :=
  {| parts := ["/"; "home"; "dev"; "agentprobe"; "run.jsonl"];
     stem := "run";
     path_str := "/home/dev/agentprobe/run.jsonl" |}.

Definition empty_path : Path :=
  {| parts := ["/"; "home"; "dev"; "empty.jsonl"];
     stem := "empty";
     path_str := "/home/dev/empty.jsonl" |}.

Definition sample_glob (directory : Path) (pattern : string) : list Path :=
  [sample_path; empty_path; other_path].

Definition sample_read (file : Path) : file_read :=
  if String.eqb (stem file) "empty"
  then {| lines := [ended text_meta]; read_error := false |}
  else sample_file.

Definition no_patterns (content : string) : list string := [].
Definition no_order (names : list value) : option (list value) := None.

Definition sample_object : t :=
  (process_directory sample_loads sample_glob sample_read init sample_path true).1.1.

(** Two of the three files give a session; the statistics of the object. *)
Example sample_statistics :
  get_statistics no_patterns no_order sample_object
  = Some (VDict
      [("total_sessions", VInt 2);
       ("total_messages", VInt 4);
       ("total_user_messages", VInt 2);
       ("total_assistant_messages", VInt 2);
       ("total_tool_uses", VInt 2);
       ("projects",
        VDict [("agrama", VDict [("sessions", VInt 1); ("messages", VInt 2);
                                 ("tool_uses", VInt 1)]);
               ("agentprobe", VDict [("sessions", VInt 1); ("messages", VInt 2);
                                     ("tool_uses", VInt 1)])]);
       ("tools_used", VList [VStr "Read"]);
       ("file_patterns", VList [])]).
Proof. vm_compute. reflexivity. Qed.

(** An object without sessions has no statistics. *)
Example no_statistics :
  get_statistics no_patterns no_order init = Some (VDict []).
Proof. reflexivity. Qed.

Lemma statistics_by_project_add_up_witness :
  match get_statistics no_patterns no_order sample_object with
  | Some (VDict stats) =>
      lookup "projects" stats
        = Some (VDict (map project_entry (project_table (sessions sample_object)))) /\
      NoDup (keys (project_table (sessions sample_object))) /\
      (forall name, name ∈ keys (project_table (sessions sample_object)) <->
         name ∈ map ConversationSession.project_name (sessions sample_object)) /\
      lookup "total_sessions" stats
        = Some (VInt (Z.of_nat
            (sum_of p_sessions (project_table (sessions sample_object))))) /\
      lookup "total_messages" stats
        = Some (VInt (Z.of_nat
            (sum_of p_messages (project_table (sessions sample_object))))) /\
      lookup "total_tool_uses" stats
        = Some (VInt (Z.of_nat
            (sum_of p_tool_uses (project_table (sessions sample_object)))))
  | _ => False
  end.
Proof.
  destruct (get_statistics no_patterns no_order sample_object)
    as [[| | | | | |stats]|] eqn:H;
    try (vm_compute in H; discriminate H).
  apply (statistics_by_project_add_up no_patterns no_order sample_object stats);
    [|exact H].
  vm_compute. discriminate.
Defined.

Lemma processed_statistics_by_role_witness :
  match get_statistics no_patterns no_order sample_object with
  | Some (VDict stats) =>
      exists users assistants messages : nat,
        lookup "total_user_messages" stats = Some (VInt (Z.of_nat users)) /\
        lookup "total_assistant_messages" stats
          = Some (VInt (Z.of_nat assistants)) /\
        lookup "total_messages" stats = Some (VInt (Z.of_nat messages)) /\
        users + assistants = messages
  | _ => False
  end.
Proof.
  destruct (get_statistics no_patterns no_order sample_object)
    as [[| | | | | |stats]|] eqn:H;
    try (vm_compute in H; discriminate H).
  apply (processed_statistics_by_role sample_loads sample_glob sample_read
           no_patterns no_order sample_path true stats); [|exact H].
  vm_compute. discriminate.
Defined.

End ProcessorObjectProperties.

(** ** The JSON text of an answer *)
Module ExtractionProperties.
Import Py LLMAnalyzer.

Fixpoint has_char (c : ascii) (s : string) : bool :=
  match s with
  | EmptyString => false
  | String a s' => Ascii.eqb a c || has_char c s'
  end.

Lemma app_cons a (s t : string) : (String a s ++ t)%string = String a (s ++ t)%string.
Proof. reflexivity. Qed.

Lemma has_char_app c (s t : string) :
  has_char c (s ++ t)%string = has_char c s || has_char c t.
Proof.
  induction s as [|a s IH]; [done|].
  rewrite app_cons. simpl. by rewrite IH, orb_assoc.
Qed.

Lemma prefix_char c a s :
  String.prefix (String c EmptyString) (String a s) = Ascii.eqb a c.
Proof.
  simpl. destruct (ascii_dec c a) as [->|Hne].
  - rewrite Ascii.eqb_refl. by destruct s.
  - symmetry. apply Ascii.eqb_neq. congruence.
Qed.

Lemma find_after_char_split c content rest :
  find_after (String c EmptyString) content = Some rest ->
  exists pre, content = (pre ++ String c rest)%string /\ has_char c pre = false.
Proof.
  revert rest. induction content as [|a s IH]; intros rest; [done|].
  unfold find_after; fold find_after. rewrite prefix_char.
  destruct (Ascii.eqb a c) eqn:Hac.
  - apply Ascii.eqb_eq in Hac. subst. simpl. intros [= <-]. by exists EmptyString.
  - intros H. destruct (IH rest H) as (pre & -> & Hpre).
    exists (String a pre). split; [done|]. simpl. by rewrite Hac.
Qed.

Lemma find_after_char_none c content :
  find_after (String c EmptyString) content = None <-> has_char c content = false.
Proof.
  induction content as [|a s IH]; [done|].
  unfold find_after; fold find_after. rewrite prefix_char. simpl.
  destruct (Ascii.eqb a c); simpl; [done | exact IH].
Qed.

Lemma upto_last_none c s : upto_last c s = None <-> has_char c s = false.
Proof.
  induction s as [|a s IH]; [done|]. simpl.
  destruct (upto_last c s) as [r|].
  - split; [done|]. intros H. apply orb_false_iff in H. destruct H as [_ H].
    apply IH in H. discriminate.
  - destruct (Ascii.eqb a c); simpl; [done|]. tauto.
Qed.

Lemma upto_last_split c s body :
  upto_last c s = Some body ->
  exists inner post,
    body = (inner ++ String c EmptyString)%string /\
    s = (body ++ post)%string /\
    has_char c post = false.
Proof.
  revert body. induction s as [|a s IH]; intros body; [done|]. simpl.
  destruct (upto_last c s) as [r|] eqn:Hr.
  - intros [= <-]. destruct (IH r eq_refl) as (inner & post & -> & -> & Hpost).
    exists (String a inner), post. done.
  - destruct (Ascii.eqb a c) eqn:Hac; [|done].
    apply Ascii.eqb_eq in Hac. subst. intros [= <-].
    exists EmptyString, s. split_and!; try done. by apply upto_last_none.
Qed.

Definition open_brace : ascii := ascii_of_nat 123.
Definition close_brace : ascii := ascii_of_nat 125.

(** When the answer has no fenced block, the JSON text taken from it runs
    from the first opening brace to the last closing brace: no opening
    brace comes before it and no closing brace after it. *)
Theorem braces_span content json_str :
  search_braces content = Some json_str ->
  exists pre inner post,
    content = (pre ++ json_str ++ post)%string /\
    json_str = (String open_brace inner ++ String close_brace EmptyString)%string /\
    has_char open_brace pre = false /\
    has_char close_brace post = false.
Proof.
  unfold search_braces. intros H.
  destruct (find_after "{" content) as [rest|] eqn:Hrest; simpl in H; [|done].
  destruct (upto_last "}" rest) as [body|] eqn:Hbody; simpl in H; [|done].
  inversion H; subst. clear H.
  apply (find_after_char_split open_brace) in Hrest.
  destruct Hrest as (pre & -> & Hpre).
  apply (upto_last_split close_brace) in Hbody.
  destruct Hbody as (inner & post & -> & -> & Hpost).
  exists pre, inner, post. split_and!; try done.
Qed.

Lemma first_occurrence c (pre1 rest1 pre2 rest2 : string) :
  (pre1 ++ String c rest1 = pre2 ++ String c rest2)%string ->
  has_char c pre1 = false ->
  exists mid, rest1 = (mid ++ rest2)%string.
Proof.
  revert pre2. induction pre1 as [|a pre1 IH]; intros pre2 Heq Hpre.
  - destruct pre2 as [|b pre2].
    + inversion Heq. by exists EmptyString.
    + rewrite app_cons in Heq. injection Heq as Hb Hr.
      exists (pre2 ++ String c EmptyString)%string. rewrite Hr.
      clear. induction pre2 as [|x pre2 IH]; [done|].
      rewrite !app_cons. by rewrite IH.
  - simpl in Hpre. apply orb_false_iff in Hpre. destruct Hpre as [Hac Hpre].
    destruct pre2 as [|b pre2].
    + rewrite app_cons in Heq. injection Heq as Hb Hr. subst a.
      by rewrite Ascii.eqb_refl in Hac.
    + rewrite !app_cons in Heq. injection Heq as Hb Hr. by eapply IH.
Qed.

(** No JSON text is taken from an answer without a fenced block exactly
    when no closing brace follows an opening brace. *)
Theorem braces_absent content :
  search_braces content = None <->
  (forall pre rest,
     content = (pre ++ String open_brace rest)%string ->
     has_char close_brace rest = false).
Proof.
  unfold search_braces. split.
  - intros H pre rest Hcontent.
    destruct (find_after "{" content) as [rest0|] eqn:Hrest; simpl in H.
    + destruct (upto_last "}" rest0) as [body|] eqn:Hbody; simpl in H; [done|].
      apply (upto_last_none close_brace) in Hbody.
      apply (find_after_char_split open_brace) in Hrest.
      destruct Hrest as (pre0 & Hsplit & Hpre0).
      rewrite Hsplit in Hcontent.
      destruct (first_occurrence _ _ _ _ _ Hcontent Hpre0) as [mid ->].
      rewrite has_char_app in Hbody. by apply orb_false_iff in Hbody as [_ ?].
    + apply (find_after_char_none open_brace) in Hrest.
      rewrite Hcontent, has_char_app in Hrest. simpl in Hrest.
      by rewrite orb_true_r in Hrest.
  - intros Hnone.
    destruct (find_after "{" content) as [rest0|] eqn:Hrest; simpl; [|done].
    apply (find_after_char_split open_brace) in Hrest.
    destruct Hrest as (pre0 & Hsplit & _).
    specialize (Hnone pre0 rest0 Hsplit).
    apply (upto_last_none close_brace) in Hnone.
    change (upto_last "}" rest0) with (upto_last close_brace rest0).
    by rewrite Hnone.
Qed.

Fixpoint all_space (s : string) : bool :=
  match s with
  | EmptyString => true
  | String c s' => is_space c && all_space s'
  end.

(** A text that does not begin with white space. *)
Definition starts_clean (s : string) : bool :=
  match s with
  | EmptyString => true
  | String c _ => negb (is_space c)
  end.

Lemma lstrip_split s :
  exists ws, s = (ws ++ lstrip s)%string /\ all_space ws = true.
Proof.
  induction s as [|c s (ws & IH & Hws)]; [by exists EmptyString|]. simpl.
  destruct (is_space c) eqn:Hc.
  - exists (String c ws). rewrite app_cons, <- IH. simpl. by rewrite Hc, Hws.
  - by exists EmptyString.
Qed.

Lemma lstrip_clean s : starts_clean (lstrip s) = true.
Proof.
  induction s as [|c s IH]; [done|]. simpl.
  destruct (is_space c) eqn:Hc; [done|]. simpl. by rewrite Hc.
Qed.

Lemma rstrip_split s :
  exists ws, s = (rstrip s ++ ws)%string /\ all_space ws = true.
Proof.
  induction s as [|c s (ws & IH & Hws)]; [by exists EmptyString|]. simpl.
  destruct (rstrip s) as [|a r] eqn:Hr.
  - change (EmptyString ++ ws)%string with ws in IH. subst ws.
    destruct (is_space c) eqn:Hc.
    + exists (String c s). split; [done|]. simpl. by rewrite Hc, Hws.
    + exists s. done.
  - exists ws. by rewrite app_cons, <- IH.
Qed.

Lemma rstrip_idempotent s : rstrip (rstrip s) = rstrip s.
Proof.
  induction s as [|c s IH]; [done|]. simpl.
  destruct (rstrip s) as [|a r] eqn:Hr.
  - destruct (is_space c) eqn:Hc; [done|]. simpl. by rewrite Hc.
  - simpl in *. by rewrite IH.
Qed.

Lemma rstrip_of_clean s :
  starts_clean s = true -> lstrip (rstrip s) = rstrip s.
Proof.
  destruct s as [|c s]; [done|]. simpl. intros Hc.
  apply negb_true_iff in Hc.
  destruct (rstrip s); rewrite ?Hc; simpl; by rewrite Hc.
Qed.

Lemma starts_clean_prefix (a b : string) :
  starts_clean (a ++ b)%string = true -> a <> EmptyString -> starts_clean a = true.
Proof. by destruct a. Qed.

Lemma prefix_app_mono p (a b : string) :
  String.prefix p a = true -> String.prefix p (a ++ b)%string = true.
Proof.
  revert a. induction p as [|x p IH]; intros a.
  - intros _. by destruct (a ++ b)%string.
  - destruct a as [|y a]; [done|]. rewrite app_cons. simpl.
    destruct (ascii_dec x y); [apply IH | done].
Qed.

Lemma prefix_skip p s :
  String.prefix p s = true -> s = (p ++ skip (String.length p) s)%string.
Proof.
  revert s. induction p as [|x p IH]; intros s; [done|].
  destruct s as [|y s]; [done|]. simpl.
  destruct (ascii_dec x y) as [->|]; [|done].
  intros H. rewrite app_cons. f_equal. by apply IH.
Qed.

Lemma occurs_cons_false x p c s :
  String.prefix (String x p) (String c s) = false ->
  occurs (String x p) s = false ->
  occurs (String x p) (String c s) = false.
Proof. intros H1 H2. simpl in *. by rewrite H1, H2. Qed.

Lemma find_after_split x p s rest :
  find_after (String x p) s = Some rest ->
  exists pre, s = (pre ++ String x p ++ rest)%string.
Proof.
  revert rest. induction s as [|c s IH]; intros rest.
  - simpl. done.
  - unfold find_after; fold find_after.
    destruct (String.prefix (String x p) (String c s)) eqn:Hp.
    + intros [= <-]. exists EmptyString. by apply prefix_skip in Hp.
    + intros H. destruct (IH rest H) as [pre ->]. by exists (String c pre).
Qed.

Lemma find_before_split x p s body :
  find_before (String x p) s = Some body ->
  (exists post, s = (body ++ String x p ++ post)%string) /\
  occurs (String x p) body = false.
Proof.
  revert body. induction s as [|c s IH]; intros body.
  - simpl. done.
  - unfold find_before; fold find_before.
    destruct (String.prefix (String x p) (String c s)) eqn:Hp.
    + intros [= <-]. split; [|done].
      apply prefix_skip in Hp. by eexists.
    + destruct (find_before (String x p) s) as [body'|] eqn:Hb; [|done].
      intros [= <-]. destruct (IH body' eq_refl) as [[post ->] Hocc].
      split; [by exists post|].
      apply occurs_cons_false; [|done].
      destruct (String.prefix (String x p) (String c body')) eqn:Hp'; [|done].
      apply (prefix_app_mono _ _ (String x p ++ post)) in Hp'.
      rewrite app_cons in Hp'. congruence.
Qed.

Lemma occurs_app_false p (a b : string) :
  occurs p (a ++ b)%string = false -> occurs p a = false.
Proof.
  induction a as [|c a IH].
  - destruct p; [|done]. simpl. by destruct b.
  - rewrite app_cons.
    change (occurs p (String c (a ++ b)))
      with (String.prefix p (String c (a ++ b)) || occurs p (a ++ b)).
    change (occurs p (String c a))
      with (String.prefix p (String c a) || occurs p a).
    intros H. apply orb_false_iff in H.
    destruct H as [H1 H2]. rewrite (IH H2), orb_false_r.
    destruct (String.prefix p (String c a)) eqn:Hp; [|done].
    apply (prefix_app_mono _ _ b) in Hp. rewrite app_cons in Hp. congruence.
Qed.

(** The JSON text taken from a fenced block is what stands between the
    opening marker and the next fence, without the white space around it:
    it holds no fence, and neither begins nor ends with white space. *)
Theorem fenced_block_group content json_str :
  search_fenced content = Some json_str ->
  exists pre before after post,
    content = (pre ++ (fence ++ "json") ++ before ++ json_str ++ after
               ++ fence ++ post)%string /\
    all_space before = true /\
    all_space after = true /\
    occurs fence json_str = false /\
    strip json_str = json_str.
Proof.
  unfold search_fenced. intros H.
  destruct (find_after (fence ++ "json") content) as [rest|] eqn:Hrest;
    simpl in H; [|done].
  destruct (find_before fence (lstrip rest)) as [body|] eqn:Hbody;
    simpl in H; [|done].
  inversion H; subst. clear H.
  apply find_after_split in Hrest. destruct Hrest as [pre ->].
  apply find_before_split in Hbody. destruct Hbody as [[post Hsplit] Hocc].
  destruct (lstrip_split rest) as (before & Hrest & Hbefore).
  destruct (rstrip_split body) as (after & Hafter & Hws).
  exists pre, before, after, post. split_and!; try done.
  - rewrite Hrest, Hsplit. rewrite Hafter at 1.
    by rewrite (ParserInvariants.string_app_assoc (rstrip body)).
  - rewrite Hafter in Hocc. by apply occurs_app_false in Hocc.
  - unfold strip.
    assert (Hclean : starts_clean body = true).
    { destruct body as [|c body]; [done|].
      pose proof (lstrip_clean rest) as Hc. rewrite Hsplit in Hc.
      by apply starts_clean_prefix in Hc. }
    by rewrite (rstrip_of_clean body Hclean), rstrip_idempotent.
Qed.

Lemma braces_span_witness :
  exists pre inner post,
    "Entities: {none at all} and {more} done"
      = (pre ++ "{none at all} and {more}" ++ post)%string /\
    "{none at all} and {more}"
      = (String open_brace inner ++ String close_brace EmptyString)%string /\
    has_char open_brace pre = false /\
    has_char close_brace post = false.
Proof.
  apply (braces_span "Entities: {none at all} and {more} done"
           "{none at all} and {more}").
  vm_compute. reflexivity.
Defined.

Lemma fenced_block_group_witness :
  exists pre before after post,
    AnalyzerProperties.answer_text
      = (pre ++ (fence ++ "json") ++ before ++ AnalyzerProperties.answer_json
         ++ after ++ fence ++ post)%string /\
    all_space before = true /\
    all_space after = true /\
    occurs fence AnalyzerProperties.answer_json = false /\
    strip AnalyzerProperties.answer_json = AnalyzerProperties.answer_json.
Proof.
  apply (fenced_block_group AnalyzerProperties.answer_text
           AnalyzerProperties.answer_json).
  vm_compute. reflexivity.
Defined.

End ExtractionProperties.

(** ** tools/conversation_processor.py: the export of summaries *)
Module ProcessorExport.
Import Py ConversationProcessor ProcessorObject.

(** The outside: the JSON documents written, by path, and the paths that
    cannot be opened for writing. *)
Record disk := {
  files : gmap string value;
  locked : gset string
}.

(** [msg.content[:200] + ('...' if len(msg.content) > 200 else '')] *)
Definition content_preview (content : string) : string :=
  (String.substring 0 200 content
   ++ (if Nat.ltb 200 (String.length content) then "..." else ""))%string.

(** Lines 265-271; [None] is a raised exception. *)
Definition preview (msg : ConversationMessage.t) : option value :=
  names ← mapM (fun tool => subscript tool "name")
             (ConversationMessage.tool_uses msg);
  Some (VDict [("type", ConversationMessage.message_type msg);
               ("timestamp", ConversationMessage.timestamp msg);
               ("content_preview",
                VStr (content_preview (ConversationMessage.content msg)));
               ("tool_uses", VList names);
               ("cwd", ConversationMessage.cwd msg)]).

(** Lines 252-272. *)
Definition summary (session : ConversationSession.t) : option value :=
  previews ← mapM preview (take 10 (ConversationSession.messages session));
  Some (VDict
    [("session_id", ConversationSession.session_id session);
     ("project_name", VStr (ConversationSession.project_name session));
     ("total_messages",
      VInt (Z.of_nat (ConversationSession.total_messages session)));
     ("user_messages",
      VInt (Z.of_nat (ConversationSession.user_messages session)));
     ("assistant_messages",
      VInt (Z.of_nat (ConversationSession.assistant_messages session)));
     ("tool_uses", VInt (Z.of_nat (ConversationSession.tool_uses session)));
     ("file_path", VStr (ConversationSession.file_path session));
     ("message_previews", VList previews)]).

(** [export_session_summaries]: the disk after the call, and [None] when
    an exception leaves the method. *)
Definition export_session_summaries (self : t) (w : disk) (output_path : string)
  : disk * option unit :=
  match mapM summary (sessions self) with
  | None => (w, None)
  | Some summaries =>
      if decide (output_path ∈ locked w) then (w, None)
      else ({| files := <[output_path := VList summaries]> (files w);
               locked := locked w |}, Some ())
  end.

End ProcessorExport.

(** ** The export of summaries: what is written *)
Module ProcessorExportProperties.
Import Py ConversationProcessor ProcessorObject ProcessorExport.

Lemma substring_length n s :
  String.length (String.substring 0 n s) = Nat.min n (String.length s).
Proof.
  revert s. induction n as [|n IH]; intros s; destruct s as [|c s]; simpl; try done.
  by rewrite IH.
Qed.

Lemma substring_all n s :
  String.length s <= n -> String.substring 0 n s = s.
Proof.
  revert s. induction n as [|n IH]; intros s; destruct s as [|c s]; simpl;
    try done; try lia.
  intros H. rewrite IH; [done | lia].
Qed.

Lemma string_length_app (a b : string) :
  String.length (a ++ b)%string = String.length a + String.length b.
Proof.
  induction a as [|c a IH]; [done|].
  change (String c a ++ b)%string with (String c (a ++ b)%string).
  simpl. by rewrite IH.
Qed.

Lemma content_preview_spec content :
  String.length (content_preview content) <= 203 /\
  (String.length content <= 200 -> content_preview content = content).
Proof.
  unfold content_preview. split.
  - rewrite string_length_app, substring_length.
    destruct (Nat.ltb 200 (String.length content));
      [change (String.length "...") with 3 | change (String.length "") with 0];
      lia.
  - intros H. rewrite substring_all by done.
    destruct (Nat.ltb_spec 200 (String.length content)); [lia|].
    apply ParserInvariants.string_app_nil_r.
Qed.

Definition preview_text (v : value) : option string :=
  match v with
  | VDict d => match lookup "content_preview" d with
               | Some (VStr text) => Some text
               | _ => None
               end
  | _ => None
  end.

Lemma preview_inv msg v :
  preview msg = Some v ->
  preview_text v = Some (content_preview (ConversationMessage.content msg)).
Proof.
  unfold preview. destruct (mapM _ _); simpl; [|done]. by intros [= <-].
Qed.

Lemma summary_inv session v :
  summary session = Some v ->
  exists d previews,
    v = VDict d /\
    lookup "session_id" d = Some (ConversationSession.session_id session) /\
    lookup "message_previews" d = Some (VList previews) /\
    Forall2 (fun msg p => preview msg = Some p)
      (take 10 (ConversationSession.messages session)) previews.
Proof.
  unfold summary.
  destruct (mapM preview _) as [previews|] eqn:Hp; simpl; [|done].
  intros [= <-]. do 2 eexists. split_and!; try done.
  by apply mapM_Some.
Qed.

(** When [export_session_summaries] returns, the output file holds one
    summary per session, in order; the summary of a session carries its
    identifier and the previews of its first ten messages (of all of them
    when there are fewer), and each preview has a text of at most 203
    characters, which is the content of the message when this has at most
    200. *)
Theorem export_writes_bounded_previews self w output_path w' :
  export_session_summaries self w output_path = (w', Some ()) ->
  exists summaries,
    files w' !! output_path = Some (VList summaries) /\
    length summaries = length (sessions self) /\
    (forall i session v,
       sessions self !! i = Some session -> summaries !! i = Some v ->
       exists d previews,
         v = VDict d /\
         lookup "session_id" d = Some (ConversationSession.session_id session) /\
         lookup "message_previews" d = Some (VList previews) /\
         length previews
           = Nat.min 10 (length (ConversationSession.messages session)) /\
         (forall k msg p,
            ConversationSession.messages session !! k = Some msg ->
            previews !! k = Some p ->
            exists text,
              preview_text p = Some text /\
              String.length text <= 203 /\
              (String.length (ConversationMessage.content msg) <= 200 ->
               text = ConversationMessage.content msg))).
Proof.
  unfold export_session_summaries.
  destruct (mapM summary (sessions self)) as [summaries|] eqn:Hs;
    [|by intros [= ]].
  destruct (decide (output_path ∈ locked w)); [by intros [= ]|].
  intros [= <-]. exists summaries. cbn [files]. rewrite lookup_insert_eq.
  apply mapM_Some in Hs. split_and!; [done| |].
  - symmetry. by eapply Forall2_length.
  - intros i session v Hi Hv.
    pose proof (Forall2_lookup_lr _ _ _ _ _ _ Hs Hi Hv) as Hsum.
    apply summary_inv in Hsum.
    destruct Hsum as (d & previews & -> & Hid & Hprev & Hall).
    exists d, previews. split_and!; try done.
    + apply Forall2_length in Hall. rewrite length_take in Hall. lia.
    + intros k msg p Hk Hp.
      assert (Hk' : take 10 (ConversationSession.messages session) !! k = Some msg).
      { rewrite lookup_take_lt; [done|].
        apply lookup_lt_Some in Hp. apply Forall2_length in Hall.
        rewrite length_take in Hall. lia. }
      pose proof (Forall2_lookup_lr _ _ _ _ _ _ Hall Hk' Hp) as Hpreview.
      apply preview_inv in Hpreview.
      exists (content_preview (ConversationMessage.content msg)).
      destruct (content_preview_spec (ConversationMessage.content msg)) as [? ?].
      done.
Qed.

Definition empty_disk : disk := {| files := ∅; locked := ∅ |}.

Lemma export_writes_bounded_previews_witness :
  exists summaries,
    files (export_session_summaries ProcessorObjectProperties.sample_object
             empty_disk "session_summaries.json").1
      !! "session_summaries.json" = Some (VList summaries) /\
    length summaries
      = length (sessions ProcessorObjectProperties.sample_object) /\
    (forall i session v,
       sessions ProcessorObjectProperties.sample_object !! i = Some session ->
       summaries !! i = Some v ->
       exists d previews,
         v = VDict d /\
         lookup "session_id" d = Some (ConversationSession.session_id session) /\
         lookup "message_previews" d = Some (VList previews) /\
         length previews
           = Nat.min 10 (length (ConversationSession.messages session)) /\
         (forall k msg p,
            ConversationSession.messages session !! k = Some msg ->
            previews !! k = Some p ->
            exists text,
              preview_text p = Some text /\
              String.length text <= 203 /\
              (String.length (ConversationMessage.content msg) <= 200 ->
               text = ConversationMessage.content msg))).
Proof.
  apply (export_writes_bounded_previews ProcessorObjectProperties.sample_object
           empty_disk "session_summaries.json").
  vm_compute. reflexivity.
Defined.

(** A content of 201 characters is cut to 200 and marked. *)
Example long_content_preview :
  let content := String.concat "" (repeat "abc" 67) in
  (String.length content,
   String.length (content_preview content),
   String.substring 198 5 (content_preview content))
  = (201, 203, "ab...").
Proof. vm_compute. reflexivity. Qed.

End ProcessorExportProperties.
